(** * TMDB movie-info wrapper: client, memoizing cache and route handlers

    A shallow embedding of [src/movie_client.py] and [src/main.py].

    - [Py]        : the Python values that flow through the program (parsed
                    JSON, exceptions, dictionaries).
    - [Requests]  : the outside world as seen through [requests.get].
    - [Functools] : [functools.lru_cache], the decorator wrapped around the
                    two client methods.
    - [MovieClient] : [MovieAPIClient] of [src/movie_client.py].
    - [Main]      : the handlers of [src/main.py].

    The theorems follow the definitions. *)

From Stdlib Require Import ZArith QArith List String Ascii Bool Lia DecimalString.
From stdpp Require Import base decidable numbers strings list.
Import ListNotations.

Local Set Warnings "-register-all".
Local Open Scope Z_scope.
Local Open Scope list_scope.
Local Open Scope string_scope.

(* ===================================================================== *)
(** ** Python values *)
(* ===================================================================== *)

Module Py.

(** What [response.json()] can produce, and therefore everything the client
    methods return.  A [dict] is kept as an association list in insertion
    order; the first binding of a key is the one a lookup sees.  Floats are
    carried as rationals: the program never computes with them. *)
Inductive pyval : Type :=
| PNone
| PBool (b : bool)
| PInt (n : Z)
| PFloat (q : Q)
| PStr (s : string)
| PList (l : list pyval)
| PDict (d : list (string * pyval)).

(** The exceptions the program can meet. *)
Inductive exn : Type :=
| ValueError (msg : string)
| JSONDecodeError (msg : string)
| AttributeError (msg : string)
| TypeError (msg : string)
| ValidationError (msg : string)
| RecursionError (msg : string).

(** A Python call either returns or raises. *)
Inductive result (A : Type) : Type :=
| Returned (a : A)
| Raised (e : exn).
Arguments Returned {A} a.
Arguments Raised {A} e.

Definition is_returned {A} (r : result A) : bool :=
  match r with Returned _ => true | Raised _ => false end.

(** [d[k]] when present. *)
Fixpoint dict_lookup (d : list (string * pyval)) (k : string) : option pyval :=
  match d with
  | [] => None
  | (k', v) :: rest => if String.eqb k k' then Some v else dict_lookup rest k
  end.

(** [k in d] for a dict [d]. *)
Definition dict_has (d : list (string * pyval)) (k : string) : bool :=
  match dict_lookup d k with Some _ => true | None => false end.

(** [d.get(k, default)] for a dict [d]. *)
Definition dict_get (d : list (string * pyval)) (k : string) (default : pyval) : pyval :=
  match dict_lookup d k with Some v => v | None => default end.

(** [type(v).__name__]. *)
Definition type_name (v : pyval) : string :=
  match v with
  | PNone => "NoneType"
  | PBool _ => "bool"
  | PInt _ => "int"
  | PFloat _ => "float"
  | PStr _ => "str"
  | PList _ => "list"
  | PDict _ => "dict"
  end.

(** [v.get(k, default)] for an arbitrary value: only a dict has [get].  The
    texts of this and the next exceptions are the ones CPython 3.10 to 3.13
    prints. *)
Definition py_get (v : pyval) (k : string) (default : pyval) : result pyval :=
  match v with
  | PDict d => Returned (dict_get d k default)
  | _ => Raised (AttributeError ("'" ++ type_name v ++ "' object has no attribute 'get'"))
  end.

(** [str(n)] for an int. *)
Definition str_of_int (n : Z) : string := NilZero.string_of_int (Z.to_int n).

(** The f-string rendering of an [os.getenv] result. *)
Definition fmt_env (v : option string) : string :=
  match v with Some s => s | None => "None" end.

(** [needle in hay] for two strings. *)
Fixpoint str_contains (needle hay : string) : bool :=
  if String.prefix needle hay then true
  else match hay with
       | EmptyString => false
       | String _ rest => str_contains needle rest
       end.

(** Truthiness, as [not v] and [if v] see it. *)
Definition truthy (v : pyval) : bool :=
  match v with
  | PNone => false
  | PBool b => b
  | PInt n => negb (n =? 0)%Z
  | PFloat q => negb (Qeq_bool q 0)
  | PStr s => negb (String.eqb s "")
  | PList l => match l with [] => false | _ => true end
  | PDict d => match d with [] => false | _ => true end
  end.

(** [k in v] for a string [k] and an arbitrary value [v]: key membership
    for a dict, element membership for a list, substring for a string, and
    a [TypeError] for the values that are not containers. *)
Definition py_contains (k : string) (v : pyval) : result bool :=
  match v with
  | PDict d => Returned (dict_has d k)
  | PList l =>
      Returned (existsb (fun x => match x with PStr s => String.eqb s k | _ => false end) l)
  | PStr s => Returned (str_contains k s)
  | _ => Raised (TypeError ("argument of type '" ++ type_name v ++ "' is not iterable"))
  end.

(** The items a [for item in v] loop visits. Iterating a dict yields its
    keys, iterating a string its characters. *)
Definition py_iter (v : pyval) : result (list pyval) :=
  match v with
  | PList l => Returned l
  | PDict d => Returned (map (fun kv => PStr (fst kv)) d)
  | PStr s => Returned (map (fun c => PStr (String c EmptyString)) (list_ascii_of_string s))
  | _ => Raised (TypeError ("'" ++ type_name v ++ "' object is not iterable"))
  end.

End Py.
Export Py.

(* ===================================================================== *)
(** ** The upstream service, seen through [requests.get] *)
(* ===================================================================== *)

Module Requests.

Record http_request : Type := {
  req_url : string;
  req_headers : list (string * string);
  req_params : list (string * string)
}.

(** What [response.json()] does with the body of a response: it returns
    the parsed value; or raises [requests.exceptions.JSONDecodeError] whose
    text is [err], because the body is not JSON; or raises another
    exception [e] on a body that is JSON ([ValueError] for an integer of
    more than 4300 digits, [RecursionError] for nesting that is too deep),
    which is not a [RequestException]. *)
Inductive http_body : Type :=
| JsonBody (v : pyval)
| NotJson (err : string)
| JsonFails (e : exn).

(** One call of [requests.get]: a response came back, or the transport
    failed (DNS, connection, timeout, invalid URL, ...) and a
    [RequestException] with text [msg] was raised. *)
Inductive http_outcome : Type :=
| TransportFailure (msg : string)
| HttpResponse (status_code : Z) (body : http_body).

(** The world: how upstream answers a request given everything that was
    sent before, and the requests sent so far, oldest first. *)
Record world : Type := {
  upstream : list http_request -> http_request -> http_outcome;
  sent : list http_request
}.

Definition requests_get (r : http_request) (w : world) : http_outcome * world :=
  (upstream w (sent w) r, {| upstream := upstream w; sent := (sent w ++ [r])%list |}).

(** [response.raise_for_status()] raises [HTTPError] for the 4xx and 5xx
    statuses and for no other. *)
Definition raises_for_status (status_code : Z) : bool :=
  ((400 <=? status_code) && (status_code <? 600))%Z.

End Requests.
Export Requests.

(* ===================================================================== *)
(** ** [functools.lru_cache] *)
(* ===================================================================== *)

Module Functools.
Section LruCache.

Context {K V W : Type} `{EqDecision K}.

(** The cache of one decorated function.  [entries] is ordered by recency,
    most recently used first (CPython keeps the same order in a circular
    linked list); [hits] and [misses] are the counters of [cache_info()]. *)
Record lru : Type := {
  entries : list (K * V);
  hits : nat;
  misses : nat
}.

Definition empty_lru : lru := {| entries := []; hits := 0; misses := 0 |}.

Fixpoint cache_get (k : K) (es : list (K * V)) : option V :=
  match es with
  | [] => None
  | (k', v) :: rest => if bool_decide (k = k') then Some v else cache_get k rest
  end.

Fixpoint unlink (k : K) (es : list (K * V)) : list (K * V) :=
  match es with
  | [] => []
  | (k', v) :: rest => if bool_decide (k = k') then rest else (k', v) :: unlink k rest
  end.

Definition keys (es : list (K * V)) : list K := map fst es.

(** The second critical section of the wrapper: the result of a miss is
    stored, in place of the oldest entry when the cache is full; a key that
    is already there is left alone. *)
Definition store (maxsize : nat) (k : K) (v : V) (es : list (K * V)) : list (K * V) :=
  match cache_get k es with
  | Some _ => es
  | None =>
    if (maxsize <=? length es)%nat
    then (k, v) :: removelast es
    else (k, v) :: es
  end.

(** [lru_cache(maxsize)(user_function)], called with key [k].  With
    [maxsize = 0] nothing is ever stored.  Otherwise a hit moves the entry
    to the recent end and returns it without calling [user_function]; a
    miss counts itself, calls [user_function], and stores what it returns.
    When [user_function] raises, the exception propagates and nothing is
    stored. *)
Definition lru_cache (maxsize : nat) (user_function : K -> W -> result V * W)
  (k : K) (st : lru * W) : result V * (lru * W) :=
  let (c, w) := st in
  match maxsize with
  | O =>
    let c1 := {| entries := entries c; hits := hits c; misses := S (misses c) |} in
    let (r, w') := user_function k w in
    (r, (c1, w'))
  | S _ =>
    match cache_get k (entries c) with
    | Some v =>
        (Returned v,
         ({| entries := (k, v) :: unlink k (entries c);
             hits := S (hits c); misses := misses c |}, w))
    | None =>
        let c1 := {| entries := entries c; hits := hits c; misses := S (misses c) |} in
        let (r, w') := user_function k w in
        match r with
        | Raised e => (Raised e, (c1, w'))
        | Returned v =>
            (Returned v,
             ({| entries := store maxsize k v (entries c1);
                 hits := hits c1; misses := misses c1 |}, w'))
        end
    end
  end.

End LruCache.
Arguments lru : clear implicits.
End Functools.
Export Functools.

(* ===================================================================== *)
(** ** [src/movie_client.py] *)
(* ===================================================================== *)

Module MovieClient.

(** The two environment variables read by [os.getenv] when the class body
    runs; an unset variable reads as [None]. *)
Record environ : Type := {
  TMDB_BASE_URL : option string;
  TMDB_API_KEY : option string
}.

Record MovieAPIClient : Type := {
  BASE_URL : option string;
  API_KEY : option string;
  headers : list (string * string)
}.

(** [MovieAPIClient()].  [not self.API_KEY] holds for an unset variable and
    for the empty string. *)
Definition MovieAPIClient_init (env : environ) : result MovieAPIClient :=
  match TMDB_API_KEY env with
  | None | Some "" =>
      Raised (ValueError
        "TMDB_API_KEY environmental variable value not set. Please check your .env file.")
  | Some key =>
      Returned {| BASE_URL := TMDB_BASE_URL env;
                  API_KEY := Some key;
                  headers := [("Authorization", "Bearer " ++ key);
                              ("accept", "application/json")] |}
  end.

(** The body of [get_movie_details], without its decorator.  The [print]
    calls are left out.

    Inside the [try], [raise_for_status()] raises [HTTPError] and
    [response.json()] raises [requests.exceptions.JSONDecodeError]; both
    are [RequestException]s (requests 2.27 and later), so the first goes to
    the first [except] block and the second to the second.  Any other
    exception of [response.json()] matches neither block and leaves the
    method.

    An exception raised inside an [except] block is not handled by the
    sibling [except] blocks: [response.json()] and [.get] on line 37 raise
    out of the method. *)
Definition get_movie_details_body (self : MovieAPIClient) (movie_id : Z)
    (w : world) : result pyval * world :=
  let endpoint := fmt_env (BASE_URL self) ++ "/movie/" ++ str_of_int movie_id in
  let (o, w') :=
    requests_get {| req_url := endpoint; req_headers := headers self; req_params := [] |} w in
  match o with
  | TransportFailure msg =>
      (Returned (PDict [("error", PStr "Network or Connection error");
                        ("message", PStr msg)]), w')
  | HttpResponse status_code body =>
      if raises_for_status status_code then
        if (status_code =? 404)%Z then (Returned PNone, w')
        else
          match body with
          | NotJson err => (Raised (JSONDecodeError err), w')
          | JsonFails e => (Raised e, w')
          | JsonBody v =>
              match py_get v "status_message" (PStr "Unknown API error") with
              | Raised e => (Raised e, w')
              | Returned m =>
                  (Returned (PDict [("error", PStr ("API error : " ++ str_of_int status_code));
                                    ("message", m)]), w')
              end
          end
      else
        match body with
        | JsonBody v => (Returned v, w')
        | NotJson err =>
            (Returned (PDict [("error", PStr "Network or Connection error");
                              ("message", PStr err)]), w')
        | JsonFails e => (Raised e, w')
        end
  end.

(** The body of [search_movies], without its decorator. *)
Definition search_movies_body (self : MovieAPIClient) (query : string)
    (w : world) : result pyval * world :=
  let endpoint := fmt_env (BASE_URL self) ++ "/search/movie" in
  let (o, w') :=
    requests_get {| req_url := endpoint; req_headers := headers self;
                    req_params := [("query", query)] |} w in
  match o with
  | TransportFailure msg =>
      (Returned (PDict [("error", PStr "Network or connection error");
                        ("message", PStr msg)]), w')
  | HttpResponse status_code body =>
      if raises_for_status status_code then
        match body with
        | NotJson err => (Raised (JSONDecodeError err), w')
        | JsonFails e => (Raised e, w')
        | JsonBody v =>
            match py_get v "status_message" (PStr "Unknown API error") with
            | Raised e => (Raised e, w')
            | Returned m =>
                (Returned (PDict [("error", PStr ("API Error: " ++ str_of_int status_code));
                                  ("message", m)]), w')
            end
        end
      else
        match body with
        | JsonBody v => (Returned v, w')
        | NotJson err =>
            (Returned (PDict [("error", PStr "Network or connection error");
                              ("message", PStr err)]), w')
        | JsonFails e => (Raised e, w')
        end
  end.

(** Everything the client mutates: the cache of each decorated method and
    the world behind [requests.get]. *)
Record client_state : Type := {
  details_cache : lru Z pyval;
  search_cache : lru string pyval;
  net : world
}.

Definition fresh (w : world) : client_state :=
  {| details_cache := empty_lru; search_cache := empty_lru; net := w |}.

Definition details_maxsize : nat := 128.
Definition search_maxsize : nat := 32.

(** [@lru_cache(maxsize=128) def get_movie_details].  The process creates
    one client, so the cache key [(self, movie_id)] is [movie_id]. *)
Definition get_movie_details (self : MovieAPIClient) (movie_id : Z)
    (st : client_state) : result pyval * client_state :=
  let '(r, (c, w)) :=
    lru_cache details_maxsize (get_movie_details_body self) movie_id
              (details_cache st, net st) in
  (r, {| details_cache := c; search_cache := search_cache st; net := w |}).

(** [@lru_cache(maxsize=32) def search_movies]. *)
Definition search_movies (self : MovieAPIClient) (query : string)
    (st : client_state) : result pyval * client_state :=
  let '(r, (c, w)) :=
    lru_cache search_maxsize (search_movies_body self) query
              (search_cache st, net st) in
  (r, {| details_cache := details_cache st; search_cache := c; net := w |}).

End MovieClient.
Export MovieClient.

(* ===================================================================== *)
(** ** [src/main.py] *)
(* ===================================================================== *)

Module Main.

(** Field validation as pydantic's [BaseModel] performs it when a model is
    constructed.  Only what every pydantic release agrees on is fixed: a
    value of the declared type is accepted as it is, and [None] is
    rejected by a required field.  How other values are coerced or
    rejected differs between releases and is left open. *)
Class Pydantic : Type := {
  validate_int : pyval -> option Z;
  validate_str : pyval -> option string;
  validate_float : pyval -> option Q;
  validate_int_int : forall n, validate_int (PInt n) = Some n;
  validate_int_None : validate_int PNone = None;
  validate_str_str : forall s, validate_str (PStr s) = Some s;
  validate_str_None : validate_str PNone = None;
  validate_float_float : forall q, validate_float (PFloat q) = Some q;
  validate_float_None : validate_float PNone = None
}.

(** A field declared [Optional[str]]. *)
Definition validate_optional_str `{Pydantic} (v : pyval) : option (option string) :=
  match v with
  | PNone => Some None
  | _ => option_map Some (validate_str v)
  end.

Module MovieDetailsResponse.
Record t : Type := {
  movie_id : Z;
  title : string;
  release_date : option string;
  rating : Q;
  summary : string;
  duration_ms : Q
}.
End MovieDetailsResponse.

Module MovieSearchResult.
Record t : Type := {
  movie_id : Z;
  title : string;
  release_date : option string
}.
End MovieSearchResult.

Module SearchResponse.
Record t : Type := {
  query : string;
  total_results : Z;
  results : list MovieSearchResult.t;
  duration_ms : Q
}.
End SearchResponse.

Section Handlers.
Context `{Pydantic}.

(** [MovieDetailsResponse(movie_id=.., title=.., ..)]: a [ValidationError]
  when a field does not validate. *)
Definition new_MovieDetailsResponse (movie_id title release_date rating summary : pyval)
  (duration_ms : Q) : result MovieDetailsResponse.t :=
  match validate_int movie_id, validate_str title, validate_optional_str release_date,
      validate_float rating, validate_str summary with
  | Some i, Some t, Some d, Some r, Some s =>
    Returned {| MovieDetailsResponse.movie_id := i;
                MovieDetailsResponse.title := t;
                MovieDetailsResponse.release_date := d;
                MovieDetailsResponse.rating := r;
                MovieDetailsResponse.summary := s;
                MovieDetailsResponse.duration_ms := duration_ms |}
  | _, _, _, _, _ => Raised (ValidationError "MovieDetailsResponse")
  end.

Definition new_MovieSearchResult (movie_id title release_date : pyval)
  : result MovieSearchResult.t :=
  match validate_int movie_id, validate_str title, validate_optional_str release_date with
  | Some i, Some t, Some d =>
    Returned {| MovieSearchResult.movie_id := i;
                MovieSearchResult.title := t;
                MovieSearchResult.release_date := d |}
  | _, _, _ => Raised (ValidationError "MovieSearchResult")
  end.

(** [query] is a [str] and [results] a list of [MovieSearchResult]
  instances, so only [total_results] can fail to validate. *)
Definition new_SearchResponse (query : string) (total_results : pyval)
  (results : list MovieSearchResult.t) (duration_ms : Q) : result SearchResponse.t :=
  match validate_int total_results with
  | Some n =>
    Returned {| SearchResponse.query := query;
                SearchResponse.total_results := n;
                SearchResponse.results := results;
                SearchResponse.duration_ms := duration_ms |}
  | None => Raised (ValidationError "SearchResponse")
  end.

(** The [detail] of each [HTTPException] the handlers raise, by the line
  that builds it:
  - [ClientNotInitialized]: "External API Client failed to initialize.
    Check environment variables."
  - [MovieNotFound movie_id]: f"Movie with ID {movie_id} not found."
  - [ExternalAPIError m]: f"External API Error: {m}", [m] being
    [.get('message', 'Check client logs.')] of the client's result
  - [DetailsProcessingError]: "Error processing external data structure.
    Internal service error."
  - [SearchProcessingError]: "Error processing external search results.
    Internal service error." *)
Inductive detail : Type :=
  | ClientNotInitialized
  | MovieNotFound (movie_id : Z)
  | ExternalAPIError (message : pyval)
  | DetailsProcessingError
  | SearchProcessingError.

Inductive content : Type :=
  | RootMessage (message : string)
  | MovieDetails (r : MovieDetailsResponse.t)
  | Search (r : SearchResponse.t).

(** How a handler ends: it returns its content (answered with status 200),
  raises an [HTTPException], or lets another exception escape. *)
Inductive reply : Type :=
  | OK (c : content)
  | HTTPException (status_code : Z) (d : detail)
  | Unhandled (e : exn).

(** Lines 50-56: the module-level client, [None] when construction raised
  [ValueError]. *)
Definition tmdb_client (env : environ) : option MovieAPIClient :=
  match MovieAPIClient_init env with
  | Returned c => Some c
  | Raised _ => None
  end.

Definition root : reply :=
  OK (RootMessage
  "Movie Info Wrapper API is running. Go to /docs for interactive documentation.").

(** [isinstance(data, dict) and 'error' in data]. *)
Definition is_error_dict (data : pyval) : bool :=
  match data with
  | PDict d => dict_has d "error"
  | _ => false
  end.

(** Step 3 of [get_movie]: the arguments are evaluated and the model is
  built inside the [try]; [except Exception] turns any failure into a
  500. *)
Definition map_movie (movie_data : pyval) (duration_ms : Q) : reply :=
  match py_get movie_data "id" PNone,
      py_get movie_data "title" PNone,
      py_get movie_data "release_date" PNone,
      py_get movie_data "vote_average" PNone,
      py_get movie_data "overview" PNone with
  | Returned i, Returned t, Returned d, Returned r, Returned s =>
    match new_MovieDetailsResponse i t d r s duration_ms with
    | Returned resp => OK (MovieDetails resp)
    | Raised _ => HTTPException 500 DetailsProcessingError
    end
  | _, _, _, _, _ => HTTPException 500 DetailsProcessingError
  end.

(** [get_movie] as FastAPI calls it, once the path parameter has passed
    its declared validation.  [client] is the module-level [tmdb_client];
    [duration_ms] stands for the time measured around the client call on
    lines 84-91. *)
Definition get_movie (client : option MovieAPIClient) (movie_id : Z) (duration_ms : Q)
  (st : client_state) : reply * client_state :=
  match client with
  | None => (HTTPException 503 ClientNotInitialized, st)
  | Some c =>
    let (r, st') := get_movie_details c movie_id st in
    match r with
    | Raised e => (Unhandled e, st')
    | Returned movie_data =>
        match movie_data with
        | PNone => (HTTPException 404 (MovieNotFound movie_id), st')
        | _ =>
            if is_error_dict movie_data then
              match py_get movie_data "message" (PStr "Check client logs.") with
              | Returned m => (HTTPException 500 (ExternalAPIError m), st')
              | Raised e => (Unhandled e, st')
              end
            else (map_movie movie_data duration_ms, st')
        end
    end
  end.

(** The loop of lines 166-173; the first item that fails ends it. *)
Fixpoint map_results (items : list pyval) : result (list MovieSearchResult.t) :=
  match items with
  | [] => Returned []
  | item :: rest =>
    match py_get item "id" PNone, py_get item "title" PNone,
          py_get item "release_date" PNone with
    | Returned i, Returned t, Returned d =>
        match new_MovieSearchResult i t d with
        | Raised e => Raised e
        | Returned m =>
            match map_results rest with
            | Raised e => Raised e
            | Returned ms => Returned (m :: ms)
            end
        end
    | Raised e, _, _ | _, Raised e, _ | _, _, Raised e => Raised e
    end
  end.

(** Step 3 of [search_movie], the whole [try] block. *)
Definition map_search (query : string) (search_data : pyval) (duration_ms : Q) : reply :=
  let failed := HTTPException 500 SearchProcessingError in
  match py_get search_data "results" (PList []) with
  | Raised _ => failed
  | Returned rs =>
    match py_iter rs with
    | Raised _ => failed
    | Returned items =>
        match map_results items with
        | Raised _ => failed
        | Returned results_list =>
            match py_get search_data "total_results"
                         (PInt (Z.of_nat (length results_list))) with
            | Raised _ => failed
            | Returned total =>
                match new_SearchResponse query total results_list duration_ms with
                | Raised _ => failed
                | Returned resp => OK (Search resp)
                end
            end
        end
    end
  end.

(** Line 162, outside the [try]. *)
Definition empty_search (query : string) (duration_ms : Q) : reply :=
  match new_SearchResponse query (PInt 0) [] duration_ms with
  | Returned resp => OK (Search resp)
  | Raised e => Unhandled e
  end.

(** [search_movie] as FastAPI calls it, once the query parameter has
    passed its declared validation. *)
Definition search_movie (client : option MovieAPIClient) (query : string) (duration_ms : Q)
  (st : client_state) : reply * client_state :=
  match client with
  | None => (HTTPException 503 ClientNotInitialized, st)
  | Some c =>
    let (r, st') := search_movies c query st in
    match r with
    | Raised e => (Unhandled e, st')
    | Returned search_data =>
        if is_error_dict search_data then
          match py_get search_data "message" (PStr "Check client logs.") with
          | Returned m => (HTTPException 500 (ExternalAPIError m), st')
          | Raised e => (Unhandled e, st')
          end
        else if negb (truthy search_data) then (empty_search query duration_ms, st')
        else
          match py_contains "results" search_data with
          | Raised e => (Unhandled e, st')
          | Returned false => (empty_search query duration_ms, st')
          | Returned true => (map_search query search_data duration_ms, st')
          end
    end
  end.

End Handlers.

(** A validator that accepts exactly the values of the declared type (and
    an int where a float is declared), used to run the handlers on
    concrete payloads. *)
#[export] Instance exact_types : Pydantic.
Proof.
  refine {|
    validate_int := fun v => match v with PInt n => Some n | _ => None end;
    validate_str := fun v => match v with PStr s => Some s | _ => None end;
    validate_float := fun v =>
      match v with PFloat q => Some q | PInt n => Some (inject_Z n) | _ => None end
  |}; reflexivity.
Defined.

End Main.
Export Main.

(* ===================================================================== *)
(** ** Sequences of client calls *)
(* ===================================================================== *)

Module Session.

(** The decorated function called on one key after another. *)
Fixpoint lru_calls {K V W : Type} `{EqDecision K} (maxsize : nat)
    (user_function : K -> W -> result V * W) (ks : list K) (st : lru K V * W)
    : list (result V) * (lru K V * W) :=
  match ks with
  | [] => ([], st)
  | k :: rest =>
      let (r, st1) := lru_cache maxsize user_function k st in
      let (rs, st2) := lru_calls maxsize user_function rest st1 in
      (r :: rs, st2)
  end.

(** A list of keys without the key [k]. *)
Definition drop_key {K : Type} `{EqDecision K} (k : K) (l : list K) : list K :=
  List.filter (fun k' => negb (bool_decide (k = k'))) l.

(** The distinct keys of a history of accesses (oldest access first), most
    recently used key first, on top of the order [older] left by earlier
    accesses. *)
Fixpoint recency {K : Type} `{EqDecision K} (history : list K) (older : list K) : list K :=
  match history with
  | [] => older
  | k :: rest => recency rest (k :: drop_key k older)
  end.

(** The two client operations a handler can invoke. *)
Inductive call : Type :=
| Details (movie_id : Z)
| SearchFor (query : string).

Definition run_call (self : MovieAPIClient) (c : call) (st : client_state)
    : result pyval * client_state :=
  match c with
  | Details movie_id => get_movie_details self movie_id st
  | SearchFor query => search_movies self query st
  end.

(** The calls of a process, in the order they are made. *)
Fixpoint run_calls (self : MovieAPIClient) (cs : list call) (st : client_state)
    : list (result pyval) * client_state :=
  match cs with
  | [] => ([], st)
  | c :: rest =>
      let (r, st1) := run_call self c st in
      let (rs, st2) := run_calls self rest st1 in
      (r :: rs, st2)
  end.

(** The request each operation sends. *)
Definition details_request (self : MovieAPIClient) (movie_id : Z) : http_request :=
  {| req_url := fmt_env (BASE_URL self) ++ "/movie/" ++ str_of_int movie_id;
     req_headers := headers self; req_params := [] |}.

Definition search_request (self : MovieAPIClient) (query : string) : http_request :=
  {| req_url := fmt_env (BASE_URL self) ++ "/search/movie";
     req_headers := headers self; req_params := [("query", query)] |}.

(** The value stored for the key of the call [c] in the cache of its
    operation, if any. *)
Definition cached_value (c : call) (st : client_state) : option pyval :=
  match c with
  | Details movie_id => cache_get movie_id (entries (details_cache st))
  | SearchFor query => cache_get query (entries (search_cache st))
  end.

Definition is_cached (c : call) (st : client_state) : bool :=
  match cached_value c st with Some _ => true | None => false end.

(** The entry of [c] remains cached during the run [cs]: it is in its
    cache after every call of the run. *)
Fixpoint cached_throughout (self : MovieAPIClient) (c : call) (cs : list call)
    (st : client_state) : bool :=
  match cs with
  | [] => true
  | c' :: rest =>
      let st1 := snd (run_call self c' st) in
      is_cached c st1 && cached_throughout self c rest st1
  end.

(** The request a call sends when it misses its cache. *)
Definition request_of (self : MovieAPIClient) (c : call) : http_request :=
  match c with
  | Details movie_id => details_request self movie_id
  | SearchFor query => search_request self query
  end.

Definition is_details (c : call) : bool :=
  match c with Details _ => true | SearchFor _ => false end.

Definition is_search (c : call) : bool :=
  match c with Details _ => false | SearchFor _ => true end.

(** An item of an upstream result list that carries the three fields of
    the search result [m]: an integer [id], a string [title], and a
    [release_date] that is a string, or [null] or absent when [m] has
    none. *)
Definition item_fields (item : pyval) (m : MovieSearchResult.t) : Prop :=
  exists d,
    item = PDict d
    /\ dict_get d "id" PNone = PInt (MovieSearchResult.movie_id m)
    /\ dict_get d "title" PNone = PStr (MovieSearchResult.title m)
    /\ dict_get d "release_date" PNone
       = match MovieSearchResult.release_date m with
         | Some date => PStr date
         | None => PNone
         end.

(** An item the loop of [search_movie] cannot map: it is not an object, or
    its [id] or [title] is absent or [null]. *)
Definition unmappable_item (item : pyval) : Prop :=
  match item with
  | PDict d => dict_get d "id" PNone = PNone \/ dict_get d "title" PNone = PNone
  | _ => True
  end.

End Session.
Export Session.

(* ===================================================================== *)
(** ** Concrete inputs *)
(* ===================================================================== *)

Module Examples.

Definition env0 : environ :=
  {| TMDB_BASE_URL := Some "https://api.themoviedb.org/3";
     TMDB_API_KEY := Some "secret" |}.

(** The credential is not set. *)
Definition env_no_key : environ :=
  {| TMDB_BASE_URL := Some "https://api.themoviedb.org/3";
     TMDB_API_KEY := None |}.

(** The client [MovieAPIClient()] builds in [env0]. *)
Definition client0 : MovieAPIClient :=
  {| BASE_URL := Some "https://api.themoviedb.org/3";
     API_KEY := Some "secret";
     headers := [("Authorization", "Bearer secret"); ("accept", "application/json")] |}.

(** An upstream that gives the same answer to every request; nothing has
    been sent yet. *)
Definition always (o : http_outcome) : world :=
  {| upstream := fun _ _ => o; sent := [] |}.

(** A gateway error page: status 502 with an HTML body, on which
    [response.json()] raises. *)
Definition bad_gateway : http_outcome :=
  HttpResponse 502 (NotJson "Expecting value: line 1 column 1 (char 0)").

Definition connection_refused : http_outcome :=
  TransportFailure "Connection refused".

(** A success status whose body is the JSON value [null]. *)
Definition null_body : http_outcome := HttpResponse 200 (JsonBody PNone).

(** A success status with the given payload. *)
Definition ok_json (v : pyval) : http_outcome := HttpResponse 200 (JsonBody v).

Definition not_found : http_outcome :=
  HttpResponse 404
    (JsonBody (PDict [("success", PBool false); ("status_code", PInt 34);
                      ("status_message", PStr "The resource you requested could not be found.")])).

Definition avengers : pyval :=
  PDict [("id", PInt 24428); ("title", PStr "The Avengers");
         ("release_date", PStr "2012-04-25"); ("vote_average", PFloat (77 # 10));
         ("overview", PStr "...")].

(** Search payloads with no results. *)
Definition no_hits : pyval :=
  PDict [("page", PInt 1); ("results", PList []);
         ("total_pages", PInt 1); ("total_results", PInt 0)].

Definition no_hits_total_5 : pyval :=
  PDict [("results", PList []); ("total_results", PInt 5)].

Definition total_without_results : pyval :=
  PDict [("total_results", PInt 7)].

(** A success response whose body is the empty JSON object. *)
Definition empty_object : pyval := PDict [].

(** A genuine payload that happens to carry an [error] field. *)
Definition avengers_with_error_field : pyval :=
  PDict [("id", PInt 24428); ("title", PStr "The Avengers");
         ("release_date", PStr "2012-04-25"); ("vote_average", PFloat (77 # 10));
         ("overview", PStr "..."); ("error", PBool false)].

Definition one_hit : pyval :=
  PDict [("page", PInt 1);
         ("results", PList [PDict [("id", PInt 24428); ("title", PStr "The Avengers");
                                   ("release_date", PStr "2012-04-25")]]);
         ("total_pages", PInt 9); ("total_results", PInt 172)].

(** The [n] ids from [a] on, and [n] different queries. *)
Definition ids_from (a n : nat) : list Z := map Z.of_nat (seq a n).
Definition queries_from (a n : nat) : list string :=
  map (fun i => "movie " ++ str_of_int (Z.of_nat i)) (seq a n).

(** An error answer with a message, and one without. *)
Definition unauthorized : http_outcome :=
  HttpResponse 401
    (JsonBody (PDict [("status_code", PInt 7);
                      ("status_message", PStr "Invalid API key: You must be granted a valid key.");
                      ("success", PBool false)])).

Definition server_error_no_message : http_outcome :=
  HttpResponse 500 (JsonBody (PDict [("success", PBool false)])).

(** A status that is neither 2xx nor an error for [raise_for_status]. *)
Definition not_modified_with_body : http_outcome :=
  HttpResponse 304 (JsonBody avengers).

(** A movie payload without its title. *)
Definition untitled : pyval :=
  PDict [("id", PInt 24428); ("release_date", PStr "2012-04-25");
         ("vote_average", PFloat (77 # 10)); ("overview", PStr "...")].

(** A result list whose second item has no [id]. *)
Definition one_bad_hit : pyval :=
  PDict [("results",
          PList [PDict [("id", PInt 24428); ("title", PStr "The Avengers")];
                 PDict [("title", PStr "Untitled")]]);
         ("total_results", PInt 2)].

(** An upstream that answers every request with [first] until [n]
    requests have been sent, and with [later] from then on. *)
Definition changing (n : nat) (first later : http_outcome) : world :=
  {| upstream := fun history _ =>
       if (length history <? n)%nat then first else later;
     sent := [] |}.

End Examples.
Export Examples.

(* ===================================================================== *)
(** ** Facts about [lru_cache] *)
(* ===================================================================== *)

Section LruFacts.

Context {K V W : Type} `{EqDecision K}.
Implicit Types (k : K) (v : V) (es : list (K * V)) (c : lru K V) (w : W).
Implicit Types (f : K -> W -> result V * W) (m : nat).

Lemma cache_get_None k es : cache_get k es = None <-> ~ In k (keys es).
Proof.
  induction es as [|[k' v'] es IH]; simpl.
  - tauto.
  - case_bool_decide as Hk.
    + split; [discriminate | intros Hn; exfalso; apply Hn; left; congruence].
    + rewrite IH. split.
      * intros Hn [Heq | Hin]; [congruence | tauto].
      * intros Hn Hin. apply Hn. now right.
Qed.

Lemma cache_get_head k v es : cache_get k ((k, v) :: es) = Some v.
Proof. simpl. now rewrite bool_decide_eq_true_2. Qed.

Lemma unlink_head k v es : unlink k ((k, v) :: es) = es.
Proof. simpl. now rewrite bool_decide_eq_true_2. Qed.

Lemma length_unlink k v es :
  cache_get k es = Some v -> S (length (unlink k es)) = length es.
Proof.
  induction es as [|[k' v'] es IH]; simpl; [discriminate|].
  case_bool_decide; [reflexivity|].
  intros Hg. simpl. now rewrite IH.
Qed.

Lemma length_removelast {A} (l : list A) : length (removelast l) = pred (length l).
Proof.
  induction l as [|a [|b l] IH]; try reflexivity.
  change (S (length (removelast (b :: l))) = S (length l)).
  rewrite IH. reflexivity.
Qed.

Lemma removelast_firstn_pred {A} (l : list A) :
  removelast l = firstn (pred (length l)) l.
Proof.
  induction l as [|a [|b l] IH]; try reflexivity.
  change (a :: removelast (b :: l) = a :: firstn (pred (length (b :: l))) (b :: l)).
  now rewrite IH.
Qed.

Lemma store_new m k v es :
  cache_get k es = None ->
  store m k v es = if (m <=? length es)%nat then (k, v) :: removelast es else (k, v) :: es.
Proof. unfold store. now intros ->. Qed.

Lemma length_store m k v es :
  (0 < m)%nat -> (length es <= m)%nat -> (length (store m k v es) <= m)%nat.
Proof.
  intros Hm Hle. unfold store.
  destruct (cache_get k es); [exact Hle|].
  destruct (Nat.leb_spec m (length es)); simpl.
  - rewrite length_removelast. lia.
  - lia.
Qed.

Lemma keys_store m k v es :
  (0 < m)%nat -> (length es <= m)%nat -> cache_get k es = None ->
  keys (store m k v es) = firstn m (k :: keys es).
Proof.
  intros Hm Hle Hg. rewrite (store_new _ _ _ _ Hg).
  destruct m as [|m']; [lia|]. simpl firstn.
  destruct (Nat.leb_spec (S m') (length es)) as [Hfull|Hroom]; unfold keys; simpl; f_equal.
  - rewrite removelast_firstn_pred.
    replace (pred (length es)) with m' by lia.
    symmetry. apply firstn_map.
  - symmetry. apply firstn_all2. rewrite length_map. lia.
Qed.

(** A call never lets the cache grow past [maxsize]. *)
Lemma lru_cache_bounded m f k c w :
  (length (entries c) <= m)%nat ->
  (length (entries (fst (snd (lru_cache m f k (c, w))))) <= m)%nat.
Proof.
  intros Hle. unfold lru_cache.
  destruct m as [|m'].
  - destruct (f k w) as [r w']. exact Hle.
  - destruct (cache_get k (entries c)) as [v|] eqn:Hg.
    + simpl. rewrite (length_unlink _ _ _ Hg). exact Hle.
    + destruct (f k w) as [[v|e] w']; simpl; [|exact Hle].
      apply length_store; [lia | exact Hle].
Qed.

(** What a miss does when the wrapped function returns. *)
Lemma lru_cache_miss m f k c w v w' :
  (0 < m)%nat -> cache_get k (entries c) = None -> f k w = (Returned v, w') ->
  lru_cache m f k (c, w)
  = (Returned v, ({| entries := store m k v (entries c);
                     hits := hits c; misses := S (misses c) |}, w')).
Proof.
  intros Hm Hg Hf. unfold lru_cache.
  destruct m as [|m']; [lia|]. now rewrite Hg, Hf.
Qed.

(** What a miss does when the wrapped function raises: nothing is stored. *)
Lemma lru_cache_miss_raised m f k c w e w' :
  cache_get k (entries c) = None -> f k w = (Raised e, w') ->
  lru_cache m f k (c, w)
  = (Raised e, ({| entries := entries c; hits := hits c; misses := S (misses c) |}, w')).
Proof.
  intros Hg Hf. unfold lru_cache.
  destruct m as [|m']; now rewrite ?Hg, Hf.
Qed.

(** After a call that returned, its key sits at the recent end with the
    value returned. *)
Lemma lru_cache_returned m f k st v st1 :
  (0 < m)%nat -> lru_cache m f k st = (Returned v, st1) ->
  exists rest, entries (fst st1) = (k, v) :: rest.
Proof.
  intros Hm. destruct st as [c w]. unfold lru_cache.
  destruct m as [|m']; [lia|].
  destruct (cache_get k (entries c)) as [v0|] eqn:Hg.
  - intros [= <- <-]. simpl. eauto.
  - destruct (f k w) as [[v0|e] w']; [|discriminate].
    intros [= <- <-]. simpl. rewrite (store_new _ _ _ _ Hg).
    destruct (S m' <=? length (entries c))%nat; eauto.
Qed.

(** Memoization: once a call with [k] has returned [v], the next call with
    [k] returns [v] again, counts a hit, and leaves the wrapped function
    uncalled (the world is untouched). *)
Lemma lru_cache_replay m f k st v st1 :
  (0 < m)%nat -> lru_cache m f k st = (Returned v, st1) ->
  lru_cache m f k st1
  = (Returned v, ({| entries := entries (fst st1);
                     hits := S (hits (fst st1));
                     misses := misses (fst st1) |}, snd st1)).
Proof.
  intros Hm Hcall.
  destruct (lru_cache_returned _ _ _ _ _ _ Hm Hcall) as [rest Hrest].
  destruct st1 as [c1 w1]. simpl in *. unfold lru_cache.
  destruct m as [|m']; [lia|].
  rewrite Hrest, cache_get_head, unlink_head. reflexivity.
Qed.

Lemma In_firstn_weaken {A} n (l : list A) x : In x (firstn n l) -> In x l.
Proof.
  revert l. induction n as [|n IH]; intros [|a l]; simpl; try tauto.
  intros [->|Hin]; [now left | right; now apply IH].
Qed.

Lemma firstn_firstn_same {A} n (l : list A) : firstn n (firstn n l) = firstn n l.
Proof. rewrite firstn_firstn. now rewrite Nat.min_id. Qed.

Lemma firstn_app_firstn {A} n (a b : list A) :
  firstn n (a ++ firstn n b)%list = firstn n (a ++ b)%list.
Proof.
  rewrite !firstn_app, firstn_firstn.
  now replace (Nat.min (n - length a) n) with (n - length a)%nat by lia.
Qed.

(** A run of misses on fresh, distinct keys that all return: the keys are
    stacked in front of the old ones and the cache keeps the [m] most
    recent of them. *)
Lemma lru_calls_fresh_keys m f ks :
  forall c w rs c' w',
    (0 < m)%nat -> (length (entries c) <= m)%nat ->
    NoDup ks -> (forall k, In k ks -> ~ In k (keys (entries c))) ->
    lru_calls m f ks (c, w) = (rs, (c', w')) ->
    forallb is_returned rs = true ->
    keys (entries c') = firstn m (rev ks ++ keys (entries c))%list
    /\ misses c' = (misses c + length ks)%nat
    /\ hits c' = hits c.
Proof.
  induction ks as [|k ks IH]; intros c w rs c' w' Hm Hle Hnd Hfresh Hrun Hret.
  - simpl in Hrun. injection Hrun as <- <- <-. simpl.
    split; [|split; [lia | reflexivity]].
    symmetry. apply firstn_all2. unfold keys. rewrite length_map. exact Hle.
  - cbn [lru_calls] in Hrun.
    assert (Hg : cache_get k (entries c) = None).
    { apply cache_get_None. apply Hfresh. now left. }
    destruct (f k w) as [[v|e] w1] eqn:Hf.
    + rewrite (lru_cache_miss _ _ _ _ _ _ _ Hm Hg Hf) in Hrun.
      destruct (lru_calls m f ks _) as [rs' [c2 w2]] eqn:Hrest.
      injection Hrun as <- <- <-. simpl in Hret.
      inversion Hnd as [|? ? Hnotin Hnd']; subst.
      pose proof (keys_store _ _ v _ Hm Hle Hg) as Hks.
      set (c1 := {| entries := store m k v (entries c);
                    hits := hits c; misses := S (misses c) |}) in *.
      assert (Hfresh1 : forall k', In k' ks -> ~ In k' (keys (entries c1))).
      { intros k' Hin' Hin. simpl in Hin. rewrite Hks in Hin.
        apply In_firstn_weaken in Hin. destruct Hin as [->|Hin].
        - apply Hnotin, list_elem_of_In, Hin'.
        - apply (Hfresh k'); [now right | exact Hin]. }
      assert (Hle1 : (length (entries c1) <= m)%nat)
        by (apply length_store; assumption).
      destruct (IH _ _ _ _ _ Hm Hle1 Hnd' Hfresh1 Hrest Hret) as (Hk & Hmiss & Hhit).
      simpl in Hk, Hmiss, Hhit. rewrite Hks in Hk.
      split; [|split; [simpl; lia | exact Hhit]].
      rewrite Hk, firstn_app_firstn. simpl rev. now rewrite <- app_assoc.
    + rewrite (lru_cache_miss_raised _ _ _ _ _ _ _ Hg Hf) in Hrun.
      destruct (lru_calls m f ks _) as [rs' [c2 w2]].
      injection Hrun as <- _ _. simpl in Hret. discriminate.
Qed.

Lemma drop_key_absent k l : ~ In k l -> drop_key k l = l.
Proof.
  induction l as [|a l IH]; [reflexivity|]. intros Hn. unfold drop_key in *.
  cbn [List.filter]. rewrite bool_decide_eq_false_2 by (intros ->; apply Hn; now left).
  cbn [negb]. f_equal. apply IH. intros Hin. apply Hn. now right.
Qed.

Lemma In_drop_key k x l : In x (drop_key k l) <-> In x l /\ k <> x.
Proof.
  unfold drop_key. rewrite List.filter_In, negb_true_iff, bool_decide_eq_false. tauto.
Qed.

Lemma NoDup_drop_key k l : NoDup l -> NoDup (k :: drop_key k l).
Proof.
  intros Hnd. apply NoDup_cons_2.
  - rewrite list_elem_of_In, In_drop_key. tauto.
  - induction Hnd as [|a l Hnotin Hnd IH]; [apply NoDup_nil_2|].
    unfold drop_key. cbn [List.filter].
    destruct (negb (bool_decide (k = a))); [|exact IH].
    apply NoDup_cons_2; [|exact IH].
    rewrite list_elem_of_In in *. fold (drop_key k l). rewrite In_drop_key. tauto.
Qed.

Lemma keys_unlink k es :
  NoDup (keys es) -> keys (unlink k es) = drop_key k (keys es).
Proof.
  induction es as [|[k' v'] es IH]; [reflexivity|].
  intros Hnd. inversion Hnd as [|? ? Hnotin Hnd']; subst.
  cbn [unlink keys map fst]. unfold drop_key. cbn [List.filter].
  case_bool_decide as Hk; cbn [negb].
  - subst k'. symmetry. apply drop_key_absent. now rewrite <- list_elem_of_In.
  - cbn [map fst]. f_equal. apply IH, Hnd'.
Qed.

(** Cutting the older keys to [S n] before a key is touched changes nothing
    among the first [S n] afterwards. *)
Lemma firstn_drop_key_firstn k n l :
  NoDup l ->
  firstn n (drop_key k (firstn (S n) l)) = firstn n (drop_key k l).
Proof.
  revert n. induction l as [|a l IH]; intros n Hnd; [reflexivity|].
  inversion Hnd as [|? ? Hnotin Hnd']; subst.
  rewrite list_elem_of_In in Hnotin.
  cbn [firstn]. unfold drop_key. cbn [List.filter].
  case_bool_decide as Hk; cbn [negb].
  - subst a. fold (drop_key k (firstn n l)). fold (drop_key k l).
    rewrite !drop_key_absent; auto.
    + apply firstn_firstn_same.
    + intros Hin. apply Hnotin. eapply In_firstn_weaken, Hin.
  - destruct n as [|n]; [reflexivity|]. cbn [firstn]. f_equal. apply IH, Hnd'.
Qed.

Lemma NoDup_firstn {A} n (l : list A) : NoDup l -> NoDup (firstn n l).
Proof.
  intros Hnd. revert n.
  induction Hnd as [|a l Hnotin Hnd IH]; intros [|n]; cbn [firstn];
    try apply NoDup_nil_2.
  apply NoDup_cons_2; [|apply IH].
  intros Hin. apply Hnotin. rewrite list_elem_of_In in *.
  eapply In_firstn_weaken, Hin.
Qed.

Lemma firstn_recency_firstn m (history : list K) :
  forall l : list K, (0 < m)%nat -> NoDup l ->
            firstn m (recency history (firstn m l)) = firstn m (recency history l).
Proof.
  induction history as [|k history IH]; intros l Hm Hnd.
  - cbn [recency]. apply firstn_firstn_same.
  - cbn [recency]. fold (drop_key k (firstn m l)). fold (drop_key k l).
    rewrite <- (IH (k :: drop_key k (firstn m l))), <- (IH (k :: drop_key k l)); auto.
    + destruct m as [|n]; [lia|]. cbn [firstn].
      now rewrite (firstn_drop_key_firstn k n l Hnd).
    + now apply NoDup_drop_key.
    + apply NoDup_drop_key, NoDup_firstn, Hnd.
Qed.

(** One returning call leaves the key in front of the others. *)
Lemma lru_cache_touch m f k c w v c' w' :
  (0 < m)%nat -> NoDup (keys (entries c)) -> (length (entries c) <= m)%nat ->
  lru_cache m f k (c, w) = (Returned v, (c', w')) ->
  keys (entries c') = firstn m (k :: drop_key k (keys (entries c))).
Proof.
  intros Hm Hnd Hle. unfold lru_cache. destruct m as [|n]; [lia|].
  destruct (cache_get k (entries c)) as [v0|] eqn:Hg.
  - intros [= <- <- <-]. cbn [entries keys map fst].
    fold (keys (unlink k (entries c))). rewrite (keys_unlink _ _ Hnd).
    symmetry. apply firstn_all2. cbn [length].
    pose proof (length_unlink _ _ _ Hg) as Hlen.
    rewrite <- (keys_unlink _ _ Hnd). unfold keys. rewrite length_map. lia.
  - destruct (f k w) as [[v0|e] w1]; [|discriminate].
    intros [= <- <- <-]. cbn [entries].
    rewrite (keys_store _ _ _ _ Hm Hle Hg).
    rewrite drop_key_absent; [reflexivity|]. now apply cache_get_None.
Qed.

(** After any run of calls that all returned, the cache holds the [m] most
    recently used distinct keys, most recent first. *)
Lemma lru_calls_recency m f ks :
  forall c w rs c' w',
    (0 < m)%nat -> NoDup (keys (entries c)) -> (length (entries c) <= m)%nat ->
    lru_calls m f ks (c, w) = (rs, (c', w')) ->
    forallb is_returned rs = true ->
    keys (entries c') = firstn m (recency ks (keys (entries c))).
Proof.
  induction ks as [|k ks IH]; intros c w rs c' w' Hm Hnd Hle Hrun Hret.
  - cbn [lru_calls] in Hrun. injection Hrun as <- <- <-. cbn [recency].
    symmetry. apply firstn_all2. unfold keys. now rewrite length_map.
  - cbn [lru_calls] in Hrun.
    destruct (lru_cache m f k (c, w)) as [r [c1 w1]] eqn:Hcall.
    destruct (lru_calls m f ks (c1, w1)) as [rs' [c2 w2]] eqn:Hrest.
    injection Hrun as <- <- <-. cbn [forallb] in Hret.
    apply andb_true_iff in Hret as [Hr Hret].
    destruct r as [v|e]; [|discriminate].
    pose proof (lru_cache_touch _ _ _ _ _ _ _ _ Hm Hnd Hle Hcall) as Hk1.
    pose proof (lru_cache_bounded m f k c w Hle) as Hle1.
    rewrite Hcall in Hle1. cbn [fst snd] in Hle1.
    assert (Hnd1 : NoDup (keys (entries c1))).
    { rewrite Hk1. apply NoDup_firstn, NoDup_drop_key, Hnd. }
    rewrite (IH _ _ _ _ _ Hm Hnd1 Hle1 Hrest Hret), Hk1. cbn [recency].
    apply firstn_recency_firstn; [exact Hm|]. now apply NoDup_drop_key.
Qed.

Lemma cache_get_unlink_ne k k' es :
  k <> k' -> cache_get k (unlink k' es) = cache_get k es.
Proof.
  intros Hne. induction es as [|[k0 v0] es IH]; [reflexivity|].
  cbn [unlink cache_get].
  destruct (decide (k' = k0)) as [->|Hk0].
  - rewrite bool_decide_eq_true_2 by reflexivity.
    now rewrite (bool_decide_eq_false_2 (k = k0)) by exact Hne.
  - rewrite (bool_decide_eq_false_2 (k' = k0)) by exact Hk0.
    cbn [cache_get]. now rewrite IH.
Qed.

Lemma cache_get_removelast k v es :
  cache_get k (removelast es) = Some v -> cache_get k es = Some v.
Proof.
  induction es as [|[k0 v0] [|b es] IH]; try discriminate.
  change (removelast ((k0, v0) :: b :: es)) with ((k0, v0) :: removelast (b :: es)).
  cbn [cache_get] in *. destruct (bool_decide (k = k0)); [auto | exact IH].
Qed.

(** A call, whatever its key and outcome, never changes the value stored
    under another entry that it leaves in the cache, nor the value of the
    entry it hits. *)
Lemma lru_cache_keeps_value m f k' c w k v v' :
  cache_get k (entries c) = Some v ->
  cache_get k (entries (fst (snd (lru_cache m f k' (c, w))))) = Some v' ->
  v' = v.
Proof.
  intros Hg. unfold lru_cache. destruct m as [|n].
  - destruct (f k' w) as [r w1]. cbn. congruence.
  - destruct (cache_get k' (entries c)) as [v0|] eqn:Hg'.
    + cbn [fst snd entries cache_get].
      destruct (decide (k = k')) as [->|Hne].
      * rewrite bool_decide_eq_true_2 by reflexivity. congruence.
      * rewrite bool_decide_eq_false_2 by exact Hne.
        rewrite (cache_get_unlink_ne _ _ _ Hne). congruence.
    + assert (Hne : k <> k') by congruence.
      destruct (f k' w) as [[v0|e] w1]; cbn [fst snd entries]; [|congruence].
      rewrite (store_new _ _ _ _ Hg').
      destruct (S n <=? length (entries c))%nat; cbn [cache_get];
        rewrite bool_decide_eq_false_2 by exact Hne.
      * intros Hl. apply cache_get_removelast in Hl. congruence.
      * congruence.
Qed.

(** Filling an empty cache with [m + 1] distinct keys leaves exactly the
    last [m] of them, most recent first: the first key has been evicted. *)
Lemma lru_calls_evicts_first m f k0 ks w rs c' w' :
  (0 < m)%nat -> NoDup (k0 :: ks) -> length ks = m ->
  lru_calls m f (k0 :: ks) (empty_lru, w) = (rs, (c', w')) ->
  forallb is_returned rs = true ->
  keys (entries c') = rev ks
  /\ cache_get k0 (entries c') = None
  /\ misses c' = S m /\ hits c' = 0%nat.
Proof.
  intros Hm Hnd Hlen Hrun Hret.
  destruct (lru_calls_fresh_keys m f (k0 :: ks) empty_lru w rs c' w' Hm)
    as (Hk & Hmiss & Hhit); auto.
  { simpl. lia. }
  assert (Hkeys : keys (entries c') = rev ks).
  { rewrite Hk. simpl. rewrite app_nil_r, firstn_app.
    rewrite firstn_all2 by (rewrite length_rev; lia).
    rewrite length_rev, Hlen, Nat.sub_diag. simpl. apply app_nil_r. }
  split; [exact Hkeys|]. split; [|split; [simpl in Hmiss; lia | exact Hhit]].
  apply cache_get_None. rewrite Hkeys. intros Hin. apply in_rev in Hin.
  inversion Hnd as [|? ? Hnotin _]; subst. apply Hnotin, list_elem_of_In, Hin.
Qed.

End LruFacts.

(* ===================================================================== *)
(** ** Facts about the client *)
(* ===================================================================== *)

Section ClientFacts.

Implicit Types (self : MovieAPIClient) (st : client_state) (w : world).

Lemma client0_constructed : MovieAPIClient_init env0 = Returned client0.
Proof. reflexivity. Qed.

Lemma details_maxsize_pos : (0 < details_maxsize)%nat.
Proof. unfold details_maxsize. lia. Qed.

Lemma search_maxsize_pos : (0 < search_maxsize)%nat.
Proof. unfold search_maxsize. lia. Qed.

(** Every run of either method body sends exactly one request. *)
Lemma details_body_sends self movie_id w :
  snd (get_movie_details_body self movie_id w)
  = {| upstream := upstream w;
       sent := (sent w ++ [details_request self movie_id])%list |}.
Proof.
  unfold get_movie_details_body, requests_get. fold (details_request self movie_id).
  destruct (upstream w (sent w) (details_request self movie_id)) as [msg|code body];
    [reflexivity|].
  destruct (raises_for_status code); [destruct (code =? 404)%Z; [reflexivity|]|];
    destruct body as [v|err|e]; try reflexivity.
  now destruct v.
Qed.

Lemma search_body_sends self query w :
  snd (search_movies_body self query w)
  = {| upstream := upstream w;
       sent := (sent w ++ [search_request self query])%list |}.
Proof.
  unfold search_movies_body, requests_get. fold (search_request self query).
  destruct (upstream w (sent w) (search_request self query)) as [msg|code body];
    [reflexivity|].
  destruct (raises_for_status code); destruct body as [v|err|e]; try reflexivity.
  now destruct v.
Qed.

(** The decorated methods replay whatever they returned last time. *)
Lemma get_movie_details_replay self movie_id st v st1 :
  get_movie_details self movie_id st = (Returned v, st1) ->
  get_movie_details self movie_id st1
  = (Returned v,
     {| details_cache := {| entries := entries (details_cache st1);
                            hits := S (hits (details_cache st1));
                            misses := misses (details_cache st1) |};
        search_cache := search_cache st1; net := net st1 |}).
Proof.
  unfold get_movie_details.
  destruct (lru_cache details_maxsize _ movie_id (details_cache st, net st))
    as [r [c w]] eqn:Hcall.
  intros [= -> <-]. cbn [details_cache search_cache net].
  now rewrite (lru_cache_replay _ _ _ _ _ _ details_maxsize_pos Hcall).
Qed.

Lemma search_movies_replay self query st v st1 :
  search_movies self query st = (Returned v, st1) ->
  search_movies self query st1
  = (Returned v,
     {| details_cache := details_cache st1;
        search_cache := {| entries := entries (search_cache st1);
                           hits := S (hits (search_cache st1));
                           misses := misses (search_cache st1) |};
        net := net st1 |}).
Proof.
  unfold search_movies.
  destruct (lru_cache search_maxsize _ query (search_cache st, net st))
    as [r [c w]] eqn:Hcall.
  intros [= -> <-]. cbn [details_cache search_cache net].
  now rewrite (lru_cache_replay _ _ _ _ _ _ search_maxsize_pos Hcall).
Qed.

(** A miss runs the method body once, on the current world. *)
Lemma get_movie_details_miss self movie_id st :
  cache_get movie_id (entries (details_cache st)) = None ->
  fst (get_movie_details self movie_id st)
    = fst (get_movie_details_body self movie_id (net st))
  /\ net (snd (get_movie_details self movie_id st))
    = snd (get_movie_details_body self movie_id (net st))
  /\ misses (details_cache (snd (get_movie_details self movie_id st)))
    = S (misses (details_cache st)).
Proof.
  intros Hg. unfold get_movie_details, lru_cache, details_maxsize. rewrite Hg.
  destruct (get_movie_details_body self movie_id (net st)) as [[v|e] w']; simpl; auto.
Qed.

Lemma search_movies_miss self query st :
  cache_get query (entries (search_cache st)) = None ->
  fst (search_movies self query st)
    = fst (search_movies_body self query (net st))
  /\ net (snd (search_movies self query st))
    = snd (search_movies_body self query (net st))
  /\ misses (search_cache (snd (search_movies self query st)))
    = S (misses (search_cache st)).
Proof.
  intros Hg. unfold search_movies, lru_cache, search_maxsize. rewrite Hg.
  destruct (search_movies_body self query (net st)) as [[v|e] w']; simpl; auto.
Qed.

(** Each decorated method touches only its own cache and keeps it within
    its [maxsize]. *)
Lemma get_movie_details_frame self movie_id st :
  (length (entries (details_cache st)) <= details_maxsize)%nat ->
  (length (entries (details_cache (snd (get_movie_details self movie_id st))))
     <= details_maxsize)%nat
  /\ search_cache (snd (get_movie_details self movie_id st)) = search_cache st.
Proof.
  intros Hle. unfold get_movie_details.
  pose proof (lru_cache_bounded details_maxsize (get_movie_details_body self)
                movie_id (details_cache st) (net st) Hle) as Hb.
  destruct (lru_cache details_maxsize _ movie_id (details_cache st, net st))
    as [r [c w]]. simpl in *. auto.
Qed.

Lemma search_movies_frame self query st :
  (length (entries (search_cache st)) <= search_maxsize)%nat ->
  (length (entries (search_cache (snd (search_movies self query st))))
     <= search_maxsize)%nat
  /\ details_cache (snd (search_movies self query st)) = details_cache st.
Proof.
  intros Hle. unfold search_movies.
  pose proof (lru_cache_bounded search_maxsize (search_movies_body self)
                query (search_cache st) (net st) Hle) as Hb.
  destruct (lru_cache search_maxsize _ query (search_cache st, net st))
    as [r [c w]]. simpl in *. auto.
Qed.

Lemma run_calls_bounded self calls :
  forall st,
    (length (entries (details_cache st)) <= details_maxsize)%nat ->
    (length (entries (search_cache st)) <= search_maxsize)%nat ->
    (length (entries (details_cache (snd (run_calls self calls st))))
       <= details_maxsize)%nat
    /\ (length (entries (search_cache (snd (run_calls self calls st))))
       <= search_maxsize)%nat.
Proof.
  induction calls as [|c calls IH]; intros st Hd Hs; [simpl; auto|].
  cbn [run_calls].
  destruct (run_call self c st) as [r st1] eqn:Hc.
  assert (Hst1 : (length (entries (details_cache st1)) <= details_maxsize)%nat
                 /\ (length (entries (search_cache st1)) <= search_maxsize)%nat).
  { destruct c as [movie_id|query]; cbn [run_call] in Hc.
    - destruct (get_movie_details_frame self movie_id st Hd) as [Hb Hf].
      rewrite Hc in Hb, Hf. simpl in Hb, Hf. rewrite Hf. auto.
    - destruct (search_movies_frame self query st Hs) as [Hb Hf].
      rewrite Hc in Hb, Hf. simpl in Hb, Hf. rewrite Hf. auto. }
  destruct Hst1 as [Hd1 Hs1].
  specialize (IH st1 Hd1 Hs1).
  destruct (run_calls self calls st1) as [rs st2]. exact IH.
Qed.

(** A run of detail lookups is a run of the decorated function on the
    detail cache; likewise for searches. *)
Lemma run_details_calls self ids :
  forall st,
    run_calls self (map Details ids) st
    = let '(rs, (c, w)) :=
        lru_calls details_maxsize (get_movie_details_body self) ids
                  (details_cache st, net st) in
      (rs, {| details_cache := c; search_cache := search_cache st; net := w |}).
Proof.
  induction ids as [|movie_id ids IH]; intros st.
  - now destruct st.
  - cbn [map run_calls run_call lru_calls]. unfold get_movie_details at 1.
    destruct (lru_cache details_maxsize _ movie_id (details_cache st, net st))
      as [r [c w]].
    rewrite IH. cbn [details_cache search_cache net].
    now destruct (lru_calls details_maxsize _ ids (c, w)) as [rs [c2 w2]].
Qed.

Lemma run_search_calls self queries :
  forall st,
    run_calls self (map SearchFor queries) st
    = let '(rs, (c, w)) :=
        lru_calls search_maxsize (search_movies_body self) queries
                  (search_cache st, net st) in
      (rs, {| details_cache := details_cache st; search_cache := c; net := w |}).
Proof.
  induction queries as [|query queries IH]; intros st.
  - now destruct st.
  - cbn [map run_calls run_call lru_calls]. unfold search_movies at 1.
    destruct (lru_cache search_maxsize _ query (search_cache st, net st))
      as [r [c w]].
    rewrite IH. cbn [details_cache search_cache net].
    now destruct (lru_calls search_maxsize _ queries (c, w)) as [rs [c2 w2]].
Qed.

End ClientFacts.

(* ===================================================================== *)
(** ** Memoization and its limits *)
(* ===================================================================== *)

(** The ways out of [get_movie_details] by exception: an error status
    other than 404 whose body is not a JSON object, or a success status
    on whose body [response.json()] raises something that is not a
    [RequestException]. *)
Lemma details_body_raises_iff (self : MovieAPIClient) (movie_id : Z) (w : world) :
  is_returned (fst (get_movie_details_body self movie_id w)) = false
  <-> exists code body,
        upstream w (sent w) (details_request self movie_id) = HttpResponse code body
        /\ ((raises_for_status code = true /\ code <> 404%Z
             /\ (forall d, body <> JsonBody (PDict d)))
            \/ (raises_for_status code = false /\ exists e, body = JsonFails e)).
Proof.
  unfold get_movie_details_body, requests_get. fold (details_request self movie_id).
  destruct (upstream w (sent w) (details_request self movie_id)) as [msg|code body]; simpl.
  - split; [discriminate | intros (? & ? & [=] & _)].
  - destruct (raises_for_status code) eqn:Hr.
    + destruct (Z.eqb_spec code 404) as [->|Hne]; simpl.
      * split; [discriminate|].
        intros (? & ? & [= <- <-] & [(_ & Hn & _) | (Hf & _)]);
          [now destruct Hn | congruence].
      * assert (Hex : (forall d, body <> JsonBody (PDict d)) ->
                      exists code' body',
                        HttpResponse code body = HttpResponse code' body'
                        /\ ((raises_for_status code' = true /\ code' <> 404%Z
                             /\ (forall d, body' <> JsonBody (PDict d)))
                            \/ (raises_for_status code' = false
                                /\ exists e, body' = JsonFails e)))
          by (intros Hd; exists code, body; auto).
        destruct body as [v|err|e].
        -- destruct v; simpl; try (split; [intros _; apply Hex; intros ?; discriminate | reflexivity]).
           split; [discriminate|].
           intros (? & ? & [= <- <-] & [(_ & _ & Hd) | (Hf & _)]);
             [now destruct (Hd d) | congruence].
        -- simpl. split; [intros _; apply Hex; intros ?; discriminate | reflexivity].
        -- simpl. split; [intros _; apply Hex; intros ?; discriminate | reflexivity].
    + destruct body as [v|err|e]; simpl.
      * split; [discriminate|].
        intros (? & ? & [= <- <-] & [(Ht & _) | (_ & e & [=])]). congruence.
      * split; [discriminate|].
        intros (? & ? & [= <- <-] & [(Ht & _) | (_ & e & [=])]). congruence.
      * split; [|reflexivity]. intros _. exists code, (JsonFails e). eauto.
Qed.

(** C7. A transport failure ([requests.get] raises a [RequestException]
    that is not an [HTTPError]) makes either method body send exactly one
    request and return the dictionary tagged as a network or connection
    error, whose message is the text of the failure; through the decorator,
    a call that misses the cache does the same. *)
Theorem transport_failure_single_attempt :
  (forall self movie_id w msg,
      upstream w (sent w) (details_request self movie_id) = TransportFailure msg ->
      get_movie_details_body self movie_id w
      = (Returned (PDict [("error", PStr "Network or Connection error");
                          ("message", PStr msg)]),
         {| upstream := upstream w;
            sent := (sent w ++ [details_request self movie_id])%list |}))
  /\ (forall self query w msg,
      upstream w (sent w) (search_request self query) = TransportFailure msg ->
      search_movies_body self query w
      = (Returned (PDict [("error", PStr "Network or connection error");
                          ("message", PStr msg)]),
         {| upstream := upstream w;
            sent := (sent w ++ [search_request self query])%list |}))
  /\ (forall self movie_id st msg,
      cache_get movie_id (entries (details_cache st)) = None ->
      upstream (net st) (sent (net st)) (details_request self movie_id)
        = TransportFailure msg ->
      fst (get_movie_details self movie_id st)
        = Returned (PDict [("error", PStr "Network or Connection error");
                           ("message", PStr msg)])
      /\ sent (net (snd (get_movie_details self movie_id st)))
        = (sent (net st) ++ [details_request self movie_id])%list)
  /\ (forall self query st msg,
      cache_get query (entries (search_cache st)) = None ->
      upstream (net st) (sent (net st)) (search_request self query)
        = TransportFailure msg ->
      fst (search_movies self query st)
        = Returned (PDict [("error", PStr "Network or connection error");
                           ("message", PStr msg)])
      /\ sent (net (snd (search_movies self query st)))
        = (sent (net st) ++ [search_request self query])%list).
Proof.
  assert (Hd : forall self movie_id w msg,
      upstream w (sent w) (details_request self movie_id) = TransportFailure msg ->
      get_movie_details_body self movie_id w
      = (Returned (PDict [("error", PStr "Network or Connection error");
                          ("message", PStr msg)]),
         {| upstream := upstream w;
            sent := (sent w ++ [details_request self movie_id])%list |})).
  { intros self movie_id w msg Hup.
    unfold get_movie_details_body, requests_get. fold (details_request self movie_id).
    now rewrite Hup. }
  assert (Hs : forall self query w msg,
      upstream w (sent w) (search_request self query) = TransportFailure msg ->
      search_movies_body self query w
      = (Returned (PDict [("error", PStr "Network or connection error");
                          ("message", PStr msg)]),
         {| upstream := upstream w;
            sent := (sent w ++ [search_request self query])%list |})).
  { intros self query w msg Hup.
    unfold search_movies_body, requests_get. fold (search_request self query).
    now rewrite Hup. }
  split; [exact Hd|]. split; [exact Hs|]. split.
  - intros self movie_id st msg Hmiss Hup.
    destruct (get_movie_details_miss self movie_id st Hmiss) as (-> & -> & _).
    now rewrite (Hd _ _ _ _ Hup).
  - intros self query st msg Hmiss Hup.
    destruct (search_movies_miss self query st Hmiss) as (-> & -> & _).
    now rewrite (Hs _ _ _ _ Hup).
Qed.

(** A refused connection: one request, one error dictionary. *)
Lemma transport_failure_single_attempt_witness :
  get_movie_details_body client0 550 (always connection_refused)
  = (Returned (PDict [("error", PStr "Network or Connection error");
                      ("message", PStr "Connection refused")]),
     {| upstream := upstream (always connection_refused);
        sent := [details_request client0 550] |}).
Proof.
  exact (proj1 transport_failure_single_attempt client0 550
               (always connection_refused) "Connection refused" eq_refl).
Defined.

(** A call leaves the values of the entries it keeps as they are, in both
    caches. *)
Lemma run_call_keeps_value self c' c st v v' :
  cached_value c st = Some v ->
  cached_value c (snd (run_call self c' st)) = Some v' ->
  v' = v.
Proof.
  destruct c' as [k|q]; cbn [run_call].
  - unfold get_movie_details.
    pose proof (lru_cache_keeps_value details_maxsize (get_movie_details_body self) k
                  (details_cache st) (net st)) as Hkeep.
    destruct (lru_cache details_maxsize _ k (details_cache st, net st)) as [r [c1 w1]].
    cbn [fst snd] in *.
    destruct c as [movie_id|query]; cbn [cached_value details_cache search_cache].
    + apply Hkeep.
    + congruence.
  - unfold search_movies.
    pose proof (lru_cache_keeps_value search_maxsize (search_movies_body self) q
                  (search_cache st) (net st)) as Hkeep.
    destruct (lru_cache search_maxsize _ q (search_cache st, net st)) as [r [c1 w1]].
    cbn [fst snd] in *.
    destruct c as [movie_id|query]; cbn [cached_value details_cache search_cache].
    + congruence.
    + apply Hkeep.
Qed.

(** An entry that remains cached during a run holds the same value after
    it. *)
Lemma run_calls_keep_value self c calls :
  forall st v,
    cached_value c st = Some v ->
    cached_throughout self c calls st = true ->
    cached_value c (snd (run_calls self calls st)) = Some v.
Proof.
  induction calls as [|c' calls IH]; intros st v Hv Hthrough; [exact Hv|].
  cbn [run_calls cached_throughout] in *.
  apply andb_true_iff in Hthrough as [Hcached Hthrough].
  destruct (run_call self c' st) as [r st1] eqn:Hc. cbn [snd] in *.
  unfold is_cached in Hcached.
  destruct (cached_value c st1) as [v'|] eqn:Hv1; [|discriminate].
  assert (v' = v) as ->.
  { apply (run_call_keeps_value self c' c st v v' Hv). now rewrite Hc. }
  specialize (IH st1 v Hv1 Hthrough).
  now destruct (run_calls self calls st1) as [rs st2].
Qed.

(** What a call finds after it returned, and what a hit does. *)
Lemma run_call_returned_cached self c st v st1 :
  run_call self c st = (Returned v, st1) -> cached_value c st1 = Some v.
Proof.
  destruct c as [k|q]; cbn [run_call cached_value].
  - unfold get_movie_details.
    destruct (lru_cache details_maxsize _ k (details_cache st, net st))
      as [r [c1 w1]] eqn:Hcall.
    intros [= -> <-]. cbn [details_cache].
    destruct (lru_cache_returned _ _ _ _ _ _ details_maxsize_pos Hcall) as [rest Hrest].
    cbn [fst] in Hrest. rewrite Hrest. apply cache_get_head.
  - unfold search_movies.
    destruct (lru_cache search_maxsize _ q (search_cache st, net st))
      as [r [c1 w1]] eqn:Hcall.
    intros [= -> <-]. cbn [search_cache].
    destruct (lru_cache_returned _ _ _ _ _ _ search_maxsize_pos Hcall) as [rest Hrest].
    cbn [fst] in Hrest. rewrite Hrest. apply cache_get_head.
Qed.

Lemma get_movie_details_hit self movie_id st v :
  cache_get movie_id (entries (details_cache st)) = Some v ->
  exists st',
    get_movie_details self movie_id st = (Returned v, st')
    /\ net st' = net st
    /\ misses (details_cache st') = misses (details_cache st)
    /\ hits (details_cache st') = S (hits (details_cache st)).
Proof.
  intros Hg. unfold get_movie_details, lru_cache, details_maxsize. rewrite Hg.
  eexists. split; [reflexivity|]. cbn. auto.
Qed.

Lemma search_movies_hit self query st v :
  cache_get query (entries (search_cache st)) = Some v ->
  exists st',
    search_movies self query st = (Returned v, st')
    /\ net st' = net st
    /\ misses (search_cache st') = misses (search_cache st)
    /\ hits (search_cache st') = S (hits (search_cache st)).
Proof.
  intros Hg. unfold search_movies, lru_cache, search_maxsize. rewrite Hg.
  eexists. split; [reflexivity|]. cbn. auto.
Qed.

(** C3. Errors are cached like successes.  When a call of either decorated
    method returns an error dictionary or [None], every later call with the
    same key made while the entry remains cached returns that same value
    from the cache: whatever calls of either operation come in between,
    with whatever outcomes, as long as the key is in its cache after each
    of them, the call sends no request (the world is left as it was) and
    counts a hit, not a miss.  With no call in between this is the
    immediately repeated call.  The cache does not look at the value:
    [run_calls_keep_value] says the same of every returned value. *)
Theorem errors_replayed_from_cache :
  (forall self movie_id st v st1 calls,
      get_movie_details self movie_id st = (Returned v, st1) ->
      is_error_dict v = true \/ v = PNone ->
      cached_throughout self (Details movie_id) calls st1 = true ->
      let st2 := snd (run_calls self calls st1) in
      exists st3,
        get_movie_details self movie_id st2 = (Returned v, st3)
        /\ net st3 = net st2
        /\ misses (details_cache st3) = misses (details_cache st2)
        /\ hits (details_cache st3) = S (hits (details_cache st2)))
  /\ (forall self query st v st1 calls,
      search_movies self query st = (Returned v, st1) ->
      is_error_dict v = true \/ v = PNone ->
      cached_throughout self (SearchFor query) calls st1 = true ->
      let st2 := snd (run_calls self calls st1) in
      exists st3,
        search_movies self query st2 = (Returned v, st3)
        /\ net st3 = net st2
        /\ misses (search_cache st3) = misses (search_cache st2)
        /\ hits (search_cache st3) = S (hits (search_cache st2))).
Proof.
  split.
  - intros self movie_id st v st1 calls Hcall _ Hthrough. cbn zeta.
    apply get_movie_details_hit.
    apply (run_calls_keep_value self (Details movie_id) calls st1 v); [|exact Hthrough].
    exact (run_call_returned_cached self (Details movie_id) st v st1 Hcall).
  - intros self query st v st1 calls Hcall _ Hthrough. cbn zeta.
    apply search_movies_hit.
    apply (run_calls_keep_value self (SearchFor query) calls st1 v); [|exact Hthrough].
    exact (run_call_returned_cached self (SearchFor query) st v st1 Hcall).
Qed.

(** The lookup of id 550 fails on a refused connection.  Upstream then
    recovers and serves a movie and a search; the next lookup of id 550
    still returns the network error, and only three requests were sent. *)
Lemma errors_replayed_from_cache_witness :
  let st0 := fresh (changing 1 connection_refused (ok_json avengers)) in
  let err := PDict [("error", PStr "Network or Connection error");
                    ("message", PStr "Connection refused")] in
  let st1 := snd (get_movie_details client0 550 st0) in
  let calls := [Details 24428; SearchFor "avengers"; Details 24428] in
  let st2 := snd (run_calls client0 calls st1) in
  (fst (run_calls client0 calls st1)
   = [Returned avengers; Returned avengers; Returned avengers]
   /\ length (sent (net st2)) = 3%nat)
  /\ exists st3,
       get_movie_details client0 550 st2 = (Returned err, st3)
       /\ net st3 = net st2
       /\ misses (details_cache st3) = misses (details_cache st2)
       /\ hits (details_cache st3) = S (hits (details_cache st2)).
Proof.
  split; [split; reflexivity|].
  apply (proj1 errors_replayed_from_cache client0 550%Z
               (fresh (changing 1 connection_refused (ok_json avengers)))).
  - reflexivity.
  - left. reflexivity.
  - reflexivity.
Defined.

(** C1, at the input where memoization fails.  Upstream answers 502 with an
    HTML page: [response.json()] raises inside the [except HTTPError] block,
    the exception leaves the method, [lru_cache] stores nothing, and the
    second call with the same key sends a second request.  The same holds
    for [search_movies]. *)
Theorem unparseable_error_is_refetched :
  let st0 := fresh (always bad_gateway) in
  let decode_error := JSONDecodeError "Expecting value: line 1 column 1 (char 0)" in
  (let (r1, st1) := get_movie_details client0 550 st0 in
   let (r2, st2) := get_movie_details client0 550 st1 in
   r1 = Raised decode_error /\ r2 = Raised decode_error
   /\ sent (net st1) = [details_request client0 550]
   /\ sent (net st2) = [details_request client0 550; details_request client0 550]
   /\ entries (details_cache st2) = [] /\ misses (details_cache st2) = 2%nat)
  /\
  (let (r1, st1) := search_movies client0 "avengers" st0 in
   let (r2, st2) := search_movies client0 "avengers" st1 in
   r1 = Raised decode_error /\ r2 = Raised decode_error
   /\ sent (net st1) = [search_request client0 "avengers"]
   /\ sent (net st2) = [search_request client0 "avengers"; search_request client0 "avengers"]
   /\ entries (search_cache st2) = [] /\ misses (search_cache st2) = 2%nat).
Proof. vm_compute. repeat split. Qed.

(** C4, at the input where an exception escapes the client.  On an error
    status whose body is not JSON, line 37 (line 56 for search) calls
    [response.json()] inside the [except] block; the [JSONDecodeError] it
    raises is handled by no one, leaves the method and then the handler. *)
Theorem unparseable_error_body_escapes :
  let decode_error := JSONDecodeError "Expecting value: line 1 column 1 (char 0)" in
  fst (get_movie_details_body client0 550 (always bad_gateway)) = Raised decode_error
  /\ fst (search_movies_body client0 "avengers" (always bad_gateway)) = Raised decode_error
  /\ (forall P : Pydantic,
        fst (get_movie (Some client0) 550 0 (fresh (always bad_gateway))) = Unhandled decode_error
        /\ fst (search_movie (Some client0) "avengers" 0 (fresh (always bad_gateway)))
           = Unhandled decode_error).
Proof. repeat split. Qed.

(* ===================================================================== *)
(** ** Capacity and eviction *)
(* ===================================================================== *)

(** C2. Whatever calls a process makes, the detail cache never holds more
    than 128 entries and the search cache never more than 32.  After any
    run of lookups that all returned, a cache holds the 128 (32) most
    recently used distinct keys, most recent first, so the key dropped to
    admit a new one is the least recently used.  In particular, when 129
    distinct ids (33 distinct queries) are looked up on empty caches,
    exactly the first key is gone: the cache holds the other 128 (32), and
    the next lookup of the first key is a miss that sends a request. *)
Theorem lru_bounded_and_evicts_oldest :
  (forall self calls w,
      let st := snd (run_calls self calls (fresh w)) in
      (length (entries (details_cache st)) <= 128)%nat
      /\ (length (entries (search_cache st)) <= 32)%nat)
  /\ (forall self ids w,
      forallb is_returned (fst (run_calls self (map Details ids) (fresh w))) = true ->
      keys (entries (details_cache (snd (run_calls self (map Details ids) (fresh w)))))
      = firstn 128 (recency ids []))
  /\ (forall self queries w,
      forallb is_returned (fst (run_calls self (map SearchFor queries) (fresh w))) = true ->
      keys (entries (search_cache (snd (run_calls self (map SearchFor queries) (fresh w)))))
      = firstn 32 (recency queries []))
  /\ (forall self id0 rest w,
      NoDup (id0 :: rest) -> length rest = 128%nat ->
      forallb is_returned (fst (run_calls self (map Details (id0 :: rest)) (fresh w))) = true ->
      let st := snd (run_calls self (map Details (id0 :: rest)) (fresh w)) in
      keys (entries (details_cache st)) = rev rest
      /\ cache_get id0 (entries (details_cache st)) = None
      /\ misses (details_cache (snd (get_movie_details self id0 st)))
         = S (misses (details_cache st))
      /\ sent (net (snd (get_movie_details self id0 st)))
         = (sent (net st) ++ [details_request self id0])%list)
  /\ (forall self q0 rest w,
      NoDup (q0 :: rest) -> length rest = 32%nat ->
      forallb is_returned (fst (run_calls self (map SearchFor (q0 :: rest)) (fresh w))) = true ->
      let st := snd (run_calls self (map SearchFor (q0 :: rest)) (fresh w)) in
      keys (entries (search_cache st)) = rev rest
      /\ cache_get q0 (entries (search_cache st)) = None
      /\ misses (search_cache (snd (search_movies self q0 st)))
         = S (misses (search_cache st))
      /\ sent (net (snd (search_movies self q0 st)))
         = (sent (net st) ++ [search_request self q0])%list).
Proof.
  split; [|split; [|split; [|split]]].
  - intros self calls w.
    apply (run_calls_bounded self calls (fresh w)); simpl; lia.
  - intros self ids w.
    rewrite (run_details_calls self ids (fresh w)).
    cbn [fresh details_cache search_cache net].
    destruct (lru_calls details_maxsize (get_movie_details_body self) ids
                (empty_lru, w)) as [rs [c w']] eqn:Hrun.
    cbn [fst snd details_cache]. intros Hret.
    apply (lru_calls_recency _ _ _ _ _ _ _ _ details_maxsize_pos
             (NoDup_nil_2 : NoDup (keys (entries empty_lru)))
             (Nat.le_0_l _) Hrun Hret).
  - intros self queries w.
    rewrite (run_search_calls self queries (fresh w)).
    cbn [fresh details_cache search_cache net].
    destruct (lru_calls search_maxsize (search_movies_body self) queries
                (empty_lru, w)) as [rs [c w']] eqn:Hrun.
    cbn [fst snd search_cache]. intros Hret.
    apply (lru_calls_recency _ _ _ _ _ _ _ _ search_maxsize_pos
             (NoDup_nil_2 : NoDup (keys (entries empty_lru)))
             (Nat.le_0_l _) Hrun Hret).
  - intros self id0 rest w Hnd Hlen.
    rewrite (run_details_calls self (id0 :: rest) (fresh w)).
    cbn [fresh details_cache search_cache net].
    destruct (lru_calls details_maxsize (get_movie_details_body self) (id0 :: rest)
                (empty_lru, w)) as [rs [c w']] eqn:Hrun.
    cbn [fst snd]. intros Hret.
    destruct (lru_calls_evicts_first _ _ _ _ _ _ _ _ details_maxsize_pos Hnd Hlen Hrun Hret)
      as (Hk & Hg & _ & _).
    cbn [details_cache].
    split; [exact Hk|]. split; [exact Hg|].
    match goal with |- context [get_movie_details self id0 ?s] =>
      destruct (get_movie_details_miss self id0 s Hg) as (_ & Hnet & Hmiss) end.
    split; [exact Hmiss|]. rewrite Hnet, details_body_sends. reflexivity.
  - intros self q0 rest w Hnd Hlen.
    rewrite (run_search_calls self (q0 :: rest) (fresh w)).
    cbn [fresh details_cache search_cache net].
    destruct (lru_calls search_maxsize (search_movies_body self) (q0 :: rest)
                (empty_lru, w)) as [rs [c w']] eqn:Hrun.
    cbn [fst snd]. intros Hret.
    destruct (lru_calls_evicts_first _ _ _ _ _ _ _ _ search_maxsize_pos Hnd Hlen Hrun Hret)
      as (Hk & Hg & _ & _).
    cbn [search_cache].
    split; [exact Hk|]. split; [exact Hg|].
    match goal with |- context [search_movies self q0 ?s] =>
      destruct (search_movies_miss self q0 s Hg) as (_ & Hnet & Hmiss) end.
    split; [exact Hmiss|]. rewrite Hnet, search_body_sends. reflexivity.
Qed.

(** The ids 1 to 129, and 33 different queries, looked up in order: the
    first id and the first query are evicted. *)
Lemma lru_bounded_and_evicts_oldest_witness :
  let w := always (ok_json avengers) in
  let st := snd (run_calls client0 (map Details (1%Z :: ids_from 2 128)) (fresh w)) in
  let st' := snd (run_calls client0 (map SearchFor ("movie 1" :: queries_from 2 32))
                            (fresh w)) in
  (keys (entries (details_cache st)) = rev (ids_from 2 128)
   /\ cache_get 1%Z (entries (details_cache st)) = None
   /\ misses (details_cache (snd (get_movie_details client0 1 st)))
      = S (misses (details_cache st))
   /\ sent (net (snd (get_movie_details client0 1 st)))
      = (sent (net st) ++ [details_request client0 1])%list)
  /\ (keys (entries (search_cache st')) = rev (queries_from 2 32)
      /\ cache_get "movie 1" (entries (search_cache st')) = None
      /\ misses (search_cache (snd (search_movies client0 "movie 1" st')))
         = S (misses (search_cache st'))
      /\ sent (net (snd (search_movies client0 "movie 1" st')))
         = (sent (net st') ++ [search_request client0 "movie 1"])%list).
Proof.
  split.
  - apply (proj1 (proj2 (proj2 (proj2 lru_bounded_and_evicts_oldest)))
                 client0 1%Z (ids_from 2 128)).
    + apply (bool_decide_unpack _). vm_compute. exact I.
    + reflexivity.
    + vm_compute. reflexivity.
  - apply (proj2 (proj2 (proj2 (proj2 lru_bounded_and_evicts_oldest)))
                 client0 "movie 1" (queries_from 2 32)).
    + apply (bool_decide_unpack _). vm_compute. exact I.
    + reflexivity.
    + vm_compute. reflexivity.
Defined.

(* ===================================================================== *)
(** ** Facts about the handlers *)
(* ===================================================================== *)

Section HandlerFacts.

Context `{Pydantic}.
Implicit Types (self : MovieAPIClient) (st : client_state) (d : list (string * pyval)).

Lemma empty_search_ok query duration_ms :
  empty_search query duration_ms
  = OK (Search {| SearchResponse.query := query;
                  SearchResponse.total_results := 0;
                  SearchResponse.results := [];
                  SearchResponse.duration_ms := duration_ms |}).
Proof. unfold empty_search, new_SearchResponse. now rewrite validate_int_int. Qed.

(** [get_movie] on each shape of client result. *)
Lemma get_movie_None self movie_id duration_ms st st' :
  get_movie_details self movie_id st = (Returned PNone, st') ->
  get_movie (Some self) movie_id duration_ms st
  = (HTTPException 404 (MovieNotFound movie_id), st').
Proof. intros Hc. unfold get_movie. now rewrite Hc. Qed.

Lemma get_movie_dict self movie_id duration_ms st d st' :
  get_movie_details self movie_id st = (Returned (PDict d), st') ->
  get_movie (Some self) movie_id duration_ms st
  = (if dict_has d "error"
     then HTTPException 500 (ExternalAPIError (dict_get d "message" (PStr "Check client logs.")))
     else map_movie (PDict d) duration_ms, st').
Proof.
  intros Hc. unfold get_movie. rewrite Hc. cbn [is_error_dict py_get].
  now destruct (dict_has d "error").
Qed.

(** [search_movie] on a dictionary. *)
Lemma search_movie_dict self query duration_ms st d st' :
  search_movies self query st = (Returned (PDict d), st') ->
  search_movie (Some self) query duration_ms st
  = (if dict_has d "error"
     then HTTPException 500 (ExternalAPIError (dict_get d "message" (PStr "Check client logs.")))
     else if dict_has d "results"
          then map_search query (PDict d) duration_ms
          else empty_search query duration_ms, st').
Proof.
  intros Hc. unfold search_movie. rewrite Hc. cbn [is_error_dict py_get py_contains].
  destruct (dict_has d "error"); [reflexivity|].
  destruct d as [|kv d']; [reflexivity|].
  cbn [truthy negb]. now destruct (dict_has (kv :: d') "results").
Qed.

(** [search_movie] on a falsy value. *)
Lemma search_movie_falsy self query duration_ms st v st' :
  search_movies self query st = (Returned v, st') ->
  truthy v = false ->
  search_movie (Some self) query duration_ms st = (empty_search query duration_ms, st').
Proof.
  intros Hc Hv. unfold search_movie. rewrite Hc.
  assert (He : is_error_dict v = false).
  { destruct v as [| | | | |l|d]; try reflexivity. now destruct d. }
  now rewrite He, Hv.
Qed.

(** The mapping step answers with data or with its own 500, nothing else. *)
Lemma map_movie_cases v duration_ms :
  (exists r, map_movie v duration_ms = OK (MovieDetails r))
  \/ map_movie v duration_ms = HTTPException 500 DetailsProcessingError.
Proof.
  unfold map_movie.
  repeat match goal with
         | |- context [match py_get ?a ?b ?c with _ => _ end] => destruct (py_get a b c)
         | |- context [match new_MovieDetailsResponse ?a ?b ?c ?d ?e ?f with _ => _ end] =>
             destruct (new_MovieDetailsResponse a b c d e f)
         end; eauto.
Qed.

Lemma map_search_cases query v duration_ms :
  (exists r, map_search query v duration_ms = OK (Search r))
  \/ map_search query v duration_ms = HTTPException 500 SearchProcessingError.
Proof.
  unfold map_search.
  destruct (py_get v "results" (PList [])) as [rs|]; [|now right].
  destruct (py_iter rs) as [items|]; [|now right].
  destruct (map_results items) as [results_list|]; [|now right].
  destruct (py_get v "total_results" _) as [total|]; [|now right].
  destruct (new_SearchResponse query total results_list duration_ms); eauto.
Qed.

(** What a successful mapping of a search payload contains. *)
Lemma map_search_ok query d duration_ms r :
  map_search query (PDict d) duration_ms = OK (Search r) ->
  exists items,
    py_iter (dict_get d "results" (PList [])) = Returned items
    /\ map_results items = Returned (SearchResponse.results r)
    /\ validate_int (dict_get d "total_results"
                       (PInt (Z.of_nat (length (SearchResponse.results r)))))
       = Some (SearchResponse.total_results r)
    /\ SearchResponse.query r = query
    /\ SearchResponse.duration_ms r = duration_ms.
Proof.
  unfold map_search. cbn [py_get].
  destruct (py_iter (dict_get d "results" (PList []))) as [items|]; [|discriminate].
  destruct (map_results items) as [results_list|] eqn:Hm; [|discriminate].
  unfold new_SearchResponse.
  destruct (validate_int _) as [n|] eqn:Hn; [|discriminate].
  intros [= <-]. cbn. exists items. repeat split; assumption || reflexivity.
Qed.

End HandlerFacts.

(* ===================================================================== *)
(** ** Not found *)
(* ===================================================================== *)

(** C5 as stated fails: [search_movies] passes the parsed body through, so
    a success response whose body is the JSON value [null] makes it return
    [None]. *)
Lemma search_can_return_None :
  ~ (forall self query st, fst (search_movies self query st) <> Returned PNone).
Proof.
  intros Hnever.
  apply (Hnever client0 "avengers" (fresh (always null_body))).
  vm_compute. reflexivity.
Qed.

(** C5, amended.  A detail lookup answered with status 404 returns [None],
    whatever the body, and [get_movie] turns a [None] into a 404 reply.
    [search_movies] never makes a [None] of a failed request: its body
    returns [None] only when upstream answered a status outside 400-599
    with the JSON value [null]; on a 404 it does not return [None]. *)
Theorem not_found_is_None_for_details `{Pydantic} :
  (forall self movie_id w body,
      upstream w (sent w) (details_request self movie_id) = HttpResponse 404 body ->
      fst (get_movie_details_body self movie_id w) = Returned PNone)
  /\ (forall self movie_id duration_ms st body,
      cache_get movie_id (entries (details_cache st)) = None ->
      upstream (net st) (sent (net st)) (details_request self movie_id)
        = HttpResponse 404 body ->
      exists st',
        get_movie_details self movie_id st = (Returned PNone, st')
        /\ get_movie (Some self) movie_id duration_ms st
           = (HTTPException 404 (MovieNotFound movie_id), st'))
  /\ (forall self movie_id duration_ms st st',
      get_movie_details self movie_id st = (Returned PNone, st') ->
      get_movie (Some self) movie_id duration_ms st
      = (HTTPException 404 (MovieNotFound movie_id), st'))
  /\ (forall self query w,
      fst (search_movies_body self query w) = Returned PNone ->
      exists code,
        upstream w (sent w) (search_request self query) = HttpResponse code (JsonBody PNone)
        /\ raises_for_status code = false)
  /\ (forall self query w body,
      upstream w (sent w) (search_request self query) = HttpResponse 404 body ->
      fst (search_movies_body self query w) <> Returned PNone).
Proof.
  assert (Hbody : forall self movie_id w body,
      upstream w (sent w) (details_request self movie_id) = HttpResponse 404 body ->
      fst (get_movie_details_body self movie_id w) = Returned PNone).
  { intros self movie_id w body Hup.
    unfold get_movie_details_body, requests_get. fold (details_request self movie_id).
    now rewrite Hup. }
  assert (Hsearch : forall self query w,
      fst (search_movies_body self query w) = Returned PNone ->
      exists code,
        upstream w (sent w) (search_request self query) = HttpResponse code (JsonBody PNone)
        /\ raises_for_status code = false).
  { intros self query w.
    unfold search_movies_body, requests_get. fold (search_request self query).
    destruct (upstream w (sent w) (search_request self query)) as [msg|code [v|err|e]];
      simpl; try discriminate.
    - destruct (raises_for_status code) eqn:Hr; simpl.
      + destruct v; simpl; discriminate.
      + intros [= ->]. eauto.
    - destruct (raises_for_status code); simpl; discriminate.
    - destruct (raises_for_status code); simpl; discriminate. }
  split; [exact Hbody|]. split; [|split; [|split; [exact Hsearch|]]].
  - intros self movie_id duration_ms st body Hg Hup.
    destruct (get_movie_details_miss self movie_id st Hg) as (Hfst & _ & _).
    rewrite (Hbody _ _ _ _ Hup) in Hfst.
    destruct (get_movie_details self movie_id st) as [r st'] eqn:Hcall.
    simpl in Hfst. subst r. exists st'. split; [reflexivity|].
    now apply get_movie_None.
  - intros self movie_id duration_ms st st'. apply get_movie_None.
  - intros self query w body Hup Hnone.
    destruct (Hsearch _ _ _ Hnone) as (code & Hup' & Hr).
    rewrite Hup in Hup'. injection Hup' as <- _. discriminate.
Qed.

(** An unknown id, answered 404 by upstream and by the service. *)
Lemma not_found_is_None_for_details_witness :
  exists st',
    get_movie_details client0 999999 (fresh (always not_found)) = (Returned PNone, st')
    /\ get_movie (Some client0) 999999 0 (fresh (always not_found))
       = (HTTPException 404 (MovieNotFound 999999), st').
Proof.
  apply (proj1 (proj2 not_found_is_None_for_details) client0 999999%Z 0%Q
               (fresh (always not_found))
               (JsonBody (PDict [("success", PBool false); ("status_code", PInt 34);
                  ("status_message", PStr "The resource you requested could not be found.")]))).
  - reflexivity.
  - reflexivity.
Defined.

(* ===================================================================== *)
(** ** Missing credential *)
(* ===================================================================== *)

(** C6. Without a credential ([TMDB_API_KEY] unset or empty) the
    constructor raises [ValueError], the module-level client is [None], and
    both movie handlers answer 503 without touching caches or network,
    whatever their argument; [root] answers as always. *)
Theorem missing_credential_disables_movie_routes `{Pydantic} (env : environ) :
  TMDB_API_KEY env = None \/ TMDB_API_KEY env = Some "" ->
  (exists msg, MovieAPIClient_init env = Raised (ValueError msg))
  /\ tmdb_client env = None
  /\ (forall movie_id duration_ms st,
        get_movie (tmdb_client env) movie_id duration_ms st
        = (HTTPException 503 ClientNotInitialized, st))
  /\ (forall query duration_ms st,
        search_movie (tmdb_client env) query duration_ms st
        = (HTTPException 503 ClientNotInitialized, st))
  /\ root = OK (RootMessage
        "Movie Info Wrapper API is running. Go to /docs for interactive documentation.").
Proof.
  intros Hkey.
  assert (Hinit : exists msg, MovieAPIClient_init env = Raised (ValueError msg)).
  { unfold MovieAPIClient_init. destruct Hkey as [-> | ->]; eauto. }
  assert (Hnone : tmdb_client env = None).
  { unfold tmdb_client. destruct Hinit as [msg ->]. reflexivity. }
  split; [exact Hinit|]. split; [exact Hnone|].
  rewrite Hnone. repeat split.
Qed.

(** The environment without [TMDB_API_KEY]. *)
Lemma missing_credential_disables_movie_routes_witness :
  (exists msg, MovieAPIClient_init env_no_key = Raised (ValueError msg))
  /\ tmdb_client env_no_key = None
  /\ (forall movie_id duration_ms st,
        get_movie (tmdb_client env_no_key) movie_id duration_ms st
        = (HTTPException 503 ClientNotInitialized, st))
  /\ (forall query duration_ms st,
        search_movie (tmdb_client env_no_key) query duration_ms st
        = (HTTPException 503 ClientNotInitialized, st))
  /\ root = OK (RootMessage
        "Movie Info Wrapper API is running. Go to /docs for interactive documentation.").
Proof.
  apply (missing_credential_disables_movie_routes env_no_key).
  left. reflexivity.
Defined.

(* ===================================================================== *)
(** ** Search replies *)
(* ===================================================================== *)

(** C8 as stated fails: a payload whose result list is empty but whose
    [total_results] is 5 is answered with [total_results = 5], under every
    validator. *)
Lemma empty_results_keep_upstream_total :
  ~ (exists P : Pydantic,
        forall self query duration_ms st d st',
          search_movies self query st = (Returned (PDict d), st') ->
          dict_has d "error" = false ->
          dict_lookup d "results" = Some (PList []) ->
          fst (search_movie (Some self) query duration_ms st)
          = OK (Search {| SearchResponse.query := query;
                          SearchResponse.total_results := 0;
                          SearchResponse.results := [];
                          SearchResponse.duration_ms := duration_ms |})).
Proof.
  intros [P Hclaim].
  pose (st0 := fresh (always (ok_json no_hits_total_5))).
  assert (Hcall : search_movies client0 "zz" st0
                  = (Returned no_hits_total_5, snd (search_movies client0 "zz" st0)))
    by reflexivity.
  specialize (Hclaim client0 "zz" 0%Q st0 _ _ Hcall eq_refl eq_refl).
  rewrite (search_movie_dict _ _ _ _ _ _ Hcall) in Hclaim.
  cbn in Hclaim. unfold map_search, new_SearchResponse in Hclaim. cbn in Hclaim.
  rewrite validate_int_int in Hclaim. discriminate.
Qed.

(** C8, amended.  A search result that is falsy, or a dictionary that has
    no [error] key and no [results] key, or a dictionary that has no
    [error] key, whose [results] is the empty list and whose
    [total_results] is absent or the integer 0, is answered successfully
    with [total_results = 0] and no results. *)
Theorem empty_search_is_success `{Pydantic} self query duration_ms st v st' :
  search_movies self query st = (Returned v, st') ->
  truthy v = false
  \/ (exists d, v = PDict d /\ dict_has d "error" = false
                 /\ dict_has d "results" = false)
  \/ (exists d, v = PDict d /\ dict_has d "error" = false
                 /\ dict_lookup d "results" = Some (PList [])
                 /\ (dict_lookup d "total_results" = None
                     \/ dict_lookup d "total_results" = Some (PInt 0))) ->
  search_movie (Some self) query duration_ms st
  = (OK (Search {| SearchResponse.query := query;
                   SearchResponse.total_results := 0;
                   SearchResponse.results := [];
                   SearchResponse.duration_ms := duration_ms |}), st').
Proof.
  intros Hcall [Hfalsy | [(d & -> & Herr & Hres) | (d & -> & Herr & Hres & Htotal)]].
  - rewrite (search_movie_falsy _ _ _ _ _ _ Hcall Hfalsy). now rewrite empty_search_ok.
  - rewrite (search_movie_dict _ _ _ _ _ _ Hcall).
    rewrite Herr, Hres. now rewrite empty_search_ok.
  - rewrite (search_movie_dict _ _ _ _ _ _ Hcall).
    rewrite Herr.
    unfold dict_has. rewrite Hres.
    unfold map_search. cbn [py_get]. unfold dict_get. rewrite Hres.
    cbn [py_iter map_results length Z.of_nat].
    unfold new_SearchResponse.
    destruct Htotal as [-> | ->]; now rewrite validate_int_int.
Qed.

(** A search without hits. *)
Lemma empty_search_is_success_witness :
  search_movie (Some client0) "zz" 0 (fresh (always (ok_json no_hits)))
  = (OK (Search {| SearchResponse.query := "zz";
                   SearchResponse.total_results := 0;
                   SearchResponse.results := [];
                   SearchResponse.duration_ms := 0 |}),
     snd (search_movies client0 "zz" (fresh (always (ok_json no_hits))))).
Proof.
  apply (empty_search_is_success client0 "zz" 0%Q (fresh (always (ok_json no_hits)))
           no_hits).
  - reflexivity.
  - right. right. eexists. split; [reflexivity|]. split; [reflexivity|].
    split; [reflexivity|]. right. reflexivity.
Defined.

(** C10 as stated fails: a payload with [total_results = 7] but no
    [results] key is answered with [total_results = 0], under every
    validator. *)
Lemma total_results_ignored_without_results :
  ~ (exists P : Pydantic,
        forall self query duration_ms st d st' n r,
          search_movies self query st = (Returned (PDict d), st') ->
          dict_has d "error" = false ->
          dict_lookup d "total_results" = Some (PInt n) ->
          fst (search_movie (Some self) query duration_ms st) = OK (Search r) ->
          SearchResponse.total_results r = n).
Proof.
  intros [P Hclaim].
  pose (st0 := fresh (always (ok_json total_without_results))).
  assert (Hcall : search_movies client0 "zz" st0
                  = (Returned total_without_results, snd (search_movies client0 "zz" st0)))
    by reflexivity.
  specialize (Hclaim client0 "zz" 0%Q st0 _ _ 7%Z
                {| SearchResponse.query := "zz";
                   SearchResponse.total_results := 0;
                   SearchResponse.results := [];
                   SearchResponse.duration_ms := 0 |} Hcall eq_refl eq_refl).
  rewrite (search_movie_dict _ _ _ _ _ _ Hcall) in Hclaim.
  cbn in Hclaim. rewrite empty_search_ok in Hclaim.
  specialize (Hclaim eq_refl). discriminate.
Qed.

(** C10, amended.  When a search payload without an [error] key has a
    [results] key and the handler answers successfully, the reply's
    [total_results] is what the validator makes of the payload's
    [total_results] when that is present, which is the field itself when it
    is an integer, and it is the number of mapped results when the field is
    absent.  A payload without an [error] key and without a [results] key
    is answered with [total_results = 0] whatever its [total_results] says.
    The count can differ from the number of results returned: a payload
    with one result and [total_results = 172] is answered with 172 and one
    result. *)
Theorem total_results_from_payload `{Pydantic} :
  (forall self query duration_ms st d st' r,
      search_movies self query st = (Returned (PDict d), st') ->
      dict_has d "error" = false ->
      dict_has d "results" = true ->
      fst (search_movie (Some self) query duration_ms st) = OK (Search r) ->
      (forall x, dict_lookup d "total_results" = Some x ->
                 validate_int x = Some (SearchResponse.total_results r))
      /\ (forall n, dict_lookup d "total_results" = Some (PInt n) ->
                    SearchResponse.total_results r = n)
      /\ (dict_lookup d "total_results" = None ->
          SearchResponse.total_results r
          = Z.of_nat (length (SearchResponse.results r))))
  /\ (forall self query duration_ms st d st',
      search_movies self query st = (Returned (PDict d), st') ->
      dict_has d "error" = false ->
      dict_has d "results" = false ->
      search_movie (Some self) query duration_ms st
      = (OK (Search {| SearchResponse.query := query;
                       SearchResponse.total_results := 0;
                       SearchResponse.results := [];
                       SearchResponse.duration_ms := duration_ms |}), st'))
  /\ (forall self query duration_ms st st',
      search_movies self query st = (Returned one_hit, st') ->
      exists r,
        fst (search_movie (Some self) query duration_ms st) = OK (Search r)
        /\ SearchResponse.total_results r = 172%Z
        /\ length (SearchResponse.results r) = 1%nat).
Proof.
  split; [|split].
  - intros self query duration_ms st d st' r Hcall Herr Hres.
    rewrite (search_movie_dict _ _ _ _ _ _ Hcall), Herr, Hres. cbn [fst].
    intros Hok. destruct (map_search_ok _ _ _ _ Hok) as (items & _ & _ & Hn & _ & _).
    unfold dict_get in Hn. split; [|split].
    + intros x Hl. now rewrite Hl in Hn.
    + intros n Hl. rewrite Hl, validate_int_int in Hn. congruence.
    + intros Hl. rewrite Hl, validate_int_int in Hn. congruence.
  - intros self query duration_ms st d st' Hcall Herr Hres.
    rewrite (search_movie_dict _ _ _ _ _ _ Hcall), Herr, Hres.
    now rewrite empty_search_ok.
  - intros self query duration_ms st st' Hcall.
    rewrite (search_movie_dict _ _ _ _ _ _ Hcall). cbn.
    unfold map_search, new_SearchResponse, new_MovieSearchResult. cbn.
    rewrite ?validate_int_int, ?validate_str_str. cbn.
    rewrite ?validate_int_int, ?validate_str_str. cbn.
    rewrite ?validate_int_int, ?validate_str_str. cbn.
    eexists. repeat split.
Qed.

(** The payload's count is 172 while one result is returned. *)
Lemma total_results_from_payload_witness :
  let reply := fst (search_movie (Some client0) "avengers" 0
                                 (fresh (always (ok_json one_hit)))) in
  exists r, reply = OK (Search r)
            /\ SearchResponse.total_results r = 172%Z
            /\ length (SearchResponse.results r) = 1%nat.
Proof.
  eexists. split; [reflexivity|]. split; [|reflexivity].
  refine (proj1 (proj2 (proj1 total_results_from_payload client0 "avengers" 0%Q
                   (fresh (always (ok_json one_hit)))
                   _ _ _ eq_refl eq_refl eq_refl eq_refl)) 172%Z eq_refl).
Defined.

(* ===================================================================== *)
(** ** Error dictionaries *)
(* ===================================================================== *)

(** C9 as stated fails in its "if" half: the empty JSON object has no
    [error] key, yet [get_movie] answers it with a 500, under every
    validator, because the required fields are missing. *)
Lemma dict_without_error_can_fail :
  ~ (exists P : Pydantic,
        forall self movie_id duration_ms st d st',
          get_movie_details self movie_id st = (Returned (PDict d), st') ->
          (dict_has d "error" = false
           <-> exists c, fst (get_movie (Some self) movie_id duration_ms st) = OK c)).
Proof.
  intros [P Hclaim].
  pose (st0 := fresh (always (ok_json empty_object))).
  assert (Hcall : get_movie_details client0 550 st0
                  = (Returned empty_object, snd (get_movie_details client0 550 st0)))
    by reflexivity.
  destruct (proj1 (Hclaim client0 550%Z 0%Q st0 _ _ Hcall) eq_refl) as [c Hc].
  rewrite (get_movie_dict _ _ _ _ _ _ Hcall) in Hc.
  cbn in Hc. unfold map_movie, new_MovieDetailsResponse in Hc. cbn in Hc.
  rewrite validate_int_None in Hc. discriminate.
Qed.

(** C9, amended.  A dictionary returned by a client call that has the key
    [error] is answered by both handlers with status 500 and the "External
    API Error" detail built from its [message], wherever the dictionary
    came from.  A dictionary is answered with data only if it lacks the
    key; one that lacks it is handed to the mapping step, which answers
    with data or with the 500 of a failed mapping. *)
Theorem error_key_decides_classification `{Pydantic} :
  (forall self movie_id duration_ms st d st',
      get_movie_details self movie_id st = (Returned (PDict d), st') ->
      (dict_has d "error" = true ->
       get_movie (Some self) movie_id duration_ms st
       = (HTTPException 500
            (ExternalAPIError (dict_get d "message" (PStr "Check client logs."))), st'))
      /\ (dict_has d "error" = false ->
          (exists r, get_movie (Some self) movie_id duration_ms st
                     = (OK (MovieDetails r), st'))
          \/ get_movie (Some self) movie_id duration_ms st
             = (HTTPException 500 DetailsProcessingError, st'))
      /\ ((exists c, fst (get_movie (Some self) movie_id duration_ms st) = OK c) ->
          dict_has d "error" = false))
  /\ (forall self query duration_ms st d st',
      search_movies self query st = (Returned (PDict d), st') ->
      (dict_has d "error" = true ->
       search_movie (Some self) query duration_ms st
       = (HTTPException 500
            (ExternalAPIError (dict_get d "message" (PStr "Check client logs."))), st'))
      /\ (dict_has d "error" = false ->
          (exists r, search_movie (Some self) query duration_ms st
                     = (OK (Search r), st'))
          \/ search_movie (Some self) query duration_ms st
             = (HTTPException 500 SearchProcessingError, st'))
      /\ ((exists c, fst (search_movie (Some self) query duration_ms st) = OK c) ->
          dict_has d "error" = false)).
Proof.
  split.
  - intros self movie_id duration_ms st d st' Hcall.
    rewrite (get_movie_dict _ _ _ _ _ _ Hcall).
    destruct (dict_has d "error"); repeat split; try discriminate.
    + intros [c Hc]. discriminate.
    + intros _. destruct (map_movie_cases (PDict d) duration_ms) as [[r ->] | ->]; eauto.
  - intros self query duration_ms st d st' Hcall.
    rewrite (search_movie_dict _ _ _ _ _ _ Hcall).
    destruct (dict_has d "error"); repeat split; try discriminate.
    + intros [c Hc]. discriminate.
    + intros _. destruct (dict_has d "results").
      * destruct (map_search_cases query (PDict d) duration_ms) as [[r ->] | ->]; eauto.
      * rewrite empty_search_ok. eauto.
Qed.

(** A payload that validates, but carries an [error] field, is rejected. *)
Lemma error_key_decides_classification_witness :
  get_movie (Some client0) 24428 0 (fresh (always (ok_json avengers_with_error_field)))
  = (HTTPException 500 (ExternalAPIError (PStr "Check client logs.")),
     snd (get_movie_details client0 24428 (fresh (always (ok_json avengers_with_error_field))))).
Proof.
  refine (proj1 (proj1 error_key_decides_classification client0 24428%Z 0%Q
                   (fresh (always (ok_json avengers_with_error_field))) _ _ eq_refl)
                eq_refl).
Defined.


(* ===================================================================== *)
(** ** Construction of the client *)
(* ===================================================================== *)

(** X1. The module-level client exists exactly when [TMDB_API_KEY] is set
    to a non-empty string, and then it carries the base URL of the
    environment and the two headers built from the key. *)
Theorem client_built_iff_key_non_empty (env : environ) (c : MovieAPIClient) :
  tmdb_client env = Some c
  <-> exists key,
        TMDB_API_KEY env = Some key /\ key <> ""
        /\ c = {| BASE_URL := TMDB_BASE_URL env;
                  API_KEY := Some key;
                  headers := [("Authorization", "Bearer " ++ key);
                              ("accept", "application/json")] |}.
Proof.
  unfold tmdb_client, MovieAPIClient_init.
  destruct (TMDB_API_KEY env) as [[|a key]|]; split.
  - discriminate.
  - intros (key & [= <-] & Hne & _). now destruct Hne.
  - intros [= <-]. eexists. repeat split. discriminate.
  - intros (key' & [= <-] & _ & ->). reflexivity.
  - discriminate.
  - intros (key & [=] & _).
Qed.

(* ===================================================================== *)
(** ** What a run of calls does to caches and network *)
(* ===================================================================== *)

Section RunFacts.

Implicit Types (self : MovieAPIClient) (st : client_state) (calls : list call).

(** One detail lookup: a hit answers from the cache and leaves the network
    alone; a miss sends one request, whatever comes of it. *)
Lemma get_movie_details_step self movie_id st :
  let st' := snd (get_movie_details self movie_id st) in
  search_cache st' = search_cache st
  /\ upstream (net st') = upstream (net st)
  /\ ((exists v, cache_get movie_id (entries (details_cache st)) = Some v
                 /\ fst (get_movie_details self movie_id st) = Returned v
                 /\ net st' = net st
                 /\ hits (details_cache st') = S (hits (details_cache st))
                 /\ misses (details_cache st') = misses (details_cache st))
      \/ (cache_get movie_id (entries (details_cache st)) = None
          /\ sent (net st') = (sent (net st) ++ [details_request self movie_id])%list
          /\ hits (details_cache st') = hits (details_cache st)
          /\ misses (details_cache st') = S (misses (details_cache st)))).
Proof.
  unfold get_movie_details, lru_cache, details_maxsize.
  destruct (cache_get movie_id (entries (details_cache st))) as [v|] eqn:Hg.
  - cbn. repeat split. left. exists v. repeat split.
  - pose proof (details_body_sends self movie_id (net st)) as Hs.
    destruct (get_movie_details_body self movie_id (net st)) as [[v|e] w'];
      cbn in *; subst w'; cbn; repeat split; right; repeat split.
Qed.

Lemma search_movies_step self query st :
  let st' := snd (search_movies self query st) in
  details_cache st' = details_cache st
  /\ upstream (net st') = upstream (net st)
  /\ ((exists v, cache_get query (entries (search_cache st)) = Some v
                 /\ fst (search_movies self query st) = Returned v
                 /\ net st' = net st
                 /\ hits (search_cache st') = S (hits (search_cache st))
                 /\ misses (search_cache st') = misses (search_cache st))
      \/ (cache_get query (entries (search_cache st)) = None
          /\ sent (net st') = (sent (net st) ++ [search_request self query])%list
          /\ hits (search_cache st') = hits (search_cache st)
          /\ misses (search_cache st') = S (misses (search_cache st)))).
Proof.
  unfold search_movies, lru_cache, search_maxsize.
  destruct (cache_get query (entries (search_cache st))) as [v|] eqn:Hg.
  - cbn. repeat split. left. exists v. repeat split.
  - pose proof (search_body_sends self query (net st)) as Hs.
    destruct (search_movies_body self query (net st)) as [[v|e] w'];
      cbn in *; subst w'; cbn; repeat split; right; repeat split.
Qed.

(** X2. Bookkeeping of a run of calls, from any state: the requests sent
    are as many as the misses of the two caches together, and in each cache
    hits plus misses grow by the number of calls of its operation.  Every
    call is a hit or a miss, and only a miss reaches the network, once. *)
Theorem requests_sent_equal_misses self calls :
  forall st,
    let st' := snd (run_calls self calls st) in
    (length (sent (net st')) + misses (details_cache st) + misses (search_cache st)
     = length (sent (net st)) + misses (details_cache st') + misses (search_cache st'))%nat
    /\ (hits (details_cache st') + misses (details_cache st')
        = hits (details_cache st) + misses (details_cache st)
          + length (List.filter is_details calls))%nat
    /\ (hits (search_cache st') + misses (search_cache st')
        = hits (search_cache st) + misses (search_cache st)
          + length (List.filter is_search calls))%nat.
Proof.
  induction calls as [|c calls IH]; intros st; [cbn; lia|].
  cbn [run_calls].
  destruct (run_call self c st) as [r st1] eqn:Hc.
  specialize (IH st1).
  destruct (run_calls self calls st1) as [rs st2]. cbn [snd] in *.
  destruct IH as (Hs & Hd & Hq).
  destruct c as [movie_id|query]; cbn [run_call] in Hc; cbn [List.filter is_details is_search length].
  - pose proof (get_movie_details_step self movie_id st) as Hstep.
    rewrite Hc in Hstep. cbn [fst snd] in Hstep.
    destruct Hstep as (Hsc & _ & [(v & _ & _ & Hnet & Hh & Hm) | (_ & Hsent & Hh & Hm)]).
    + rewrite Hnet, Hsc in *. lia.
    + rewrite Hsc in *.
      assert (length (sent (net st1)) = S (length (sent (net st))))
        by (rewrite Hsent, length_app; cbn; lia).
      lia.
  - pose proof (search_movies_step self query st) as Hstep.
    rewrite Hc in Hstep. cbn [fst snd] in Hstep.
    destruct Hstep as (Hdc & _ & [(v & _ & _ & Hnet & Hh & Hm) | (_ & Hsent & Hh & Hm)]).
    + rewrite Hnet, Hdc in *. lia.
    + rewrite Hdc in *.
      assert (length (sent (net st1)) = S (length (sent (net st))))
        by (rewrite Hsent, length_app; cbn; lia).
      lia.
Qed.

(** X3. The client sends nothing but the requests of its calls: after a
    run of calls the log of sent requests is the old log followed by the
    requests of some of the calls, in call order, each at most once per
    call, with the headers of the client; the behaviour of upstream is not
    touched. *)
Theorem only_requests_of_calls_are_sent self calls :
  forall st,
    let st' := snd (run_calls self calls st) in
    upstream (net st') = upstream (net st)
    /\ exists missed,
         sublist missed calls
         /\ sent (net st') = (sent (net st) ++ map (request_of self) missed)%list.
Proof.
  induction calls as [|c calls IH]; intros st.
  - cbn. split; [reflexivity|]. exists []. split; [constructor|]. now rewrite app_nil_r.
  - cbn [run_calls].
    destruct (run_call self c st) as [r st1] eqn:Hc.
    specialize (IH st1).
    destruct (run_calls self calls st1) as [rs st2]. cbn [snd] in *.
    destruct IH as (Hup & missed & Hsub & Hsent).
    assert (Hstep : upstream (net st1) = upstream (net st)
                    /\ (net st1 = net st
                        \/ sent (net st1) = (sent (net st) ++ [request_of self c])%list)).
    { destruct c as [movie_id|query]; cbn [run_call request_of] in *.
      - pose proof (get_movie_details_step self movie_id st) as Hstep.
        rewrite Hc in Hstep. cbn [fst snd] in Hstep.
        destruct Hstep as (_ & Hu & [(v & _ & _ & Hnet & _) | (_ & Hs & _)]); auto.
      - pose proof (search_movies_step self query st) as Hstep.
        rewrite Hc in Hstep. cbn [fst snd] in Hstep.
        destruct Hstep as (_ & Hu & [(v & _ & _ & Hnet & _) | (_ & Hs & _)]); auto. }
    destruct Hstep as (Hu & [Hnet | Hs]).
    + split; [congruence|]. exists missed. split; [now constructor|].
      now rewrite Hsent, Hnet.
    + split; [congruence|]. exists (c :: missed). split; [now constructor|].
      rewrite Hsent, Hs. cbn [map]. now rewrite <- app_assoc.
Qed.

End RunFacts.

(* ===================================================================== *)
(** ** No key is cached twice *)
(* ===================================================================== *)

Section LruInvariants.

Context {K V W : Type} `{EqDecision K}.

(** A call, returning or raising, keeps the cached keys distinct. *)
Lemma lru_cache_NoDup (m : nat) (f : K -> W -> result V * W) (k : K)
    (c : lru K V) (w : W) :
  (0 < m)%nat -> NoDup (keys (entries c)) -> (length (entries c) <= m)%nat ->
  NoDup (keys (entries (fst (snd (lru_cache m f k (c, w)))))).
Proof.
  intros Hm Hnd Hle.
  destruct (lru_cache m f k (c, w)) as [[v|e] [c' w']] eqn:Hcall.
  - cbn [fst snd]. rewrite (lru_cache_touch _ _ _ _ _ _ _ _ Hm Hnd Hle Hcall).
    apply NoDup_firstn, NoDup_drop_key, Hnd.
  - cbn [fst snd]. revert Hcall. unfold lru_cache.
    destruct m as [|n]; [lia|].
    destruct (cache_get k (entries c)); [discriminate|].
    destruct (f k w) as [[v|e'] w1]; [discriminate|].
    intros [= _ <- _]. exact Hnd.
Qed.

End LruInvariants.

Lemma run_calls_NoDup (self : MovieAPIClient) (calls : list call) :
  forall st,
    NoDup (keys (entries (details_cache st))) ->
    NoDup (keys (entries (search_cache st))) ->
    (length (entries (details_cache st)) <= details_maxsize)%nat ->
    (length (entries (search_cache st)) <= search_maxsize)%nat ->
    NoDup (keys (entries (details_cache (snd (run_calls self calls st)))))
    /\ NoDup (keys (entries (search_cache (snd (run_calls self calls st))))).
Proof.
  induction calls as [|c calls IH]; intros st Hd Hs Hbd Hbs; [cbn; auto|].
  cbn [run_calls].
  destruct (run_call self c st) as [r st1] eqn:Hc.
  assert (Hst1 : NoDup (keys (entries (details_cache st1)))
                 /\ NoDup (keys (entries (search_cache st1)))
                 /\ (length (entries (details_cache st1)) <= details_maxsize)%nat
                 /\ (length (entries (search_cache st1)) <= search_maxsize)%nat).
  { destruct c as [movie_id|query]; cbn [run_call] in Hc.
    - destruct (get_movie_details_frame self movie_id st Hbd) as [Hb Hf].
      rewrite Hc in Hb, Hf. cbn [snd] in Hb, Hf. rewrite Hf.
      pose proof (lru_cache_NoDup details_maxsize (get_movie_details_body self) movie_id
                    (details_cache st) (net st) details_maxsize_pos Hd Hbd) as Hn.
      unfold get_movie_details in Hc.
      destruct (lru_cache details_maxsize _ movie_id (details_cache st, net st))
        as [r' [c' w']].
      injection Hc as _ <-. cbn [fst snd details_cache search_cache] in *. auto.
    - destruct (search_movies_frame self query st Hbs) as [Hb Hf].
      rewrite Hc in Hb, Hf. cbn [snd] in Hb, Hf. rewrite Hf.
      pose proof (lru_cache_NoDup search_maxsize (search_movies_body self) query
                    (search_cache st) (net st) search_maxsize_pos Hs Hbs) as Hn.
      unfold search_movies in Hc.
      destruct (lru_cache search_maxsize _ query (search_cache st, net st))
        as [r' [c' w']].
      injection Hc as _ <-. cbn [fst snd details_cache search_cache] in *. auto. }
  destruct Hst1 as (Hd1 & Hs1 & Hbd1 & Hbs1).
  specialize (IH st1 Hd1 Hs1 Hbd1 Hbs1).
  destruct (run_calls self calls st1) as [rs st2]. exact IH.
Qed.

(** X4. Whatever calls a process makes, neither cache ever holds the same
    key twice: a repeated lookup refreshes the entry it finds instead of
    adding one. *)
Theorem cached_keys_are_distinct (self : MovieAPIClient) (calls : list call) (w : world) :
  NoDup (keys (entries (details_cache (snd (run_calls self calls (fresh w))))))
  /\ NoDup (keys (entries (search_cache (snd (run_calls self calls (fresh w)))))).
Proof.
  apply run_calls_NoDup; cbn; try apply NoDup_nil_2; lia.
Qed.

(* ===================================================================== *)
(** ** Outcomes of the two client methods *)
(* ===================================================================== *)

(** X5. Only the statuses 400 to 599 count as errors.  A response with any
    other status (1xx, 3xx, 600 and above as much as 2xx) is a success: its
    parsed body is returned unchanged, whatever its shape; when the body is
    not JSON the method returns the dictionary tagged as a network or
    connection error, with the decoder's message. *)
Theorem status_outside_400_599_is_success :
  (forall self movie_id w code v,
      raises_for_status code = false ->
      upstream w (sent w) (details_request self movie_id) = HttpResponse code (JsonBody v) ->
      fst (get_movie_details_body self movie_id w) = Returned v)
  /\ (forall self query w code v,
      raises_for_status code = false ->
      upstream w (sent w) (search_request self query) = HttpResponse code (JsonBody v) ->
      fst (search_movies_body self query w) = Returned v)
  /\ (forall self movie_id w code err,
      raises_for_status code = false ->
      upstream w (sent w) (details_request self movie_id) = HttpResponse code (NotJson err) ->
      fst (get_movie_details_body self movie_id w)
      = Returned (PDict [("error", PStr "Network or Connection error");
                         ("message", PStr err)]))
  /\ (forall self query w code err,
      raises_for_status code = false ->
      upstream w (sent w) (search_request self query) = HttpResponse code (NotJson err) ->
      fst (search_movies_body self query w)
      = Returned (PDict [("error", PStr "Network or connection error");
                         ("message", PStr err)])).
Proof.
  repeat split; intros self k w code x Hr Hup.
  - unfold get_movie_details_body, requests_get. fold (details_request self k).
    now rewrite Hup, Hr.
  - unfold search_movies_body, requests_get. fold (search_request self k).
    now rewrite Hup, Hr.
  - unfold get_movie_details_body, requests_get. fold (details_request self k).
    now rewrite Hup, Hr.
  - unfold search_movies_body, requests_get. fold (search_request self k).
    now rewrite Hup, Hr.
Qed.

(** A 304 that carries a movie is served as that movie. *)
Lemma status_outside_400_599_is_success_witness :
  fst (get_movie_details_body client0 24428 (always not_modified_with_body))
  = Returned avengers.
Proof.
  exact (proj1 status_outside_400_599_is_success client0 24428%Z
               (always not_modified_with_body) 304%Z avengers eq_refl eq_refl).
Defined.

(** X6. [get_movie_details] reports "not found" in exactly two situations:
    upstream answered 404 (with any body), or upstream answered a status
    outside 400-599 whose body is the JSON value [null]. *)
Theorem details_None_iff (self : MovieAPIClient) (movie_id : Z) (w : world) :
  fst (get_movie_details_body self movie_id w) = Returned PNone
  <-> (exists body,
          upstream w (sent w) (details_request self movie_id) = HttpResponse 404 body)
      \/ (exists code,
          upstream w (sent w) (details_request self movie_id)
            = HttpResponse code (JsonBody PNone)
          /\ raises_for_status code = false).
Proof.
  unfold get_movie_details_body, requests_get. fold (details_request self movie_id).
  destruct (upstream w (sent w) (details_request self movie_id)) as [msg|code body]; cbn.
  - split; [discriminate | intros [(? & [=]) | (? & [=] & _)]].
  - destruct (raises_for_status code) eqn:Hr.
    + destruct (Z.eqb_spec code 404) as [->|Hne]; cbn.
      * split; [eauto | reflexivity].
      * split.
        -- destruct body as [v|err|e]; [destruct v| |]; cbn; discriminate.
        -- intros [(body' & [= -> _]) | (code' & [= <- _] & Hr')];
             [now destruct Hne | congruence].
    + destruct body as [v|err|e]; cbn.
      * split.
        -- intros [= ->]. right. eauto.
        -- intros [(body' & [= -> _]) | (code' & [= _ ->] & _)];
             [discriminate Hr | reflexivity].
      * split; [discriminate|].
        intros [(body' & [= -> _]) | (code' & [=] & _)]. discriminate Hr.
      * split; [discriminate|].
        intros [(body' & [= -> _]) | (code' & [=] & _)]. discriminate Hr.
Qed.

(* ===================================================================== *)
(** ** From client result to reply *)
(* ===================================================================== *)

Section ReplyFacts.

Context `{Pydantic}.
Implicit Types (self : MovieAPIClient) (st : client_state) (d : list (string * pyval)).

(** The reply of [get_movie] is a function of what the client call gave,
    and the handler changes nothing the client call did not change. *)
Lemma get_movie_of_result self movie_id duration_ms st :
  fst (get_movie (Some self) movie_id duration_ms st)
  = match fst (get_movie_details self movie_id st) with
    | Raised e => Unhandled e
    | Returned PNone => HTTPException 404 (MovieNotFound movie_id)
    | Returned (PDict d) =>
        if dict_has d "error"
        then HTTPException 500
               (ExternalAPIError (dict_get d "message" (PStr "Check client logs.")))
        else map_movie (PDict d) duration_ms
    | Returned v => map_movie v duration_ms
    end
  /\ snd (get_movie (Some self) movie_id duration_ms st)
     = snd (get_movie_details self movie_id st).
Proof.
  unfold get_movie.
  destruct (get_movie_details self movie_id st) as [[v|e] st']; cbn [fst snd];
    [|split; reflexivity].
  destruct v as [| | | | | |d]; cbn; try (split; reflexivity).
  destruct (dict_has d "error"); split; reflexivity.
Qed.

Lemma search_movie_of_result self query duration_ms st :
  fst (search_movie (Some self) query duration_ms st)
  = match fst (search_movies self query st) with
    | Raised e => Unhandled e
    | Returned (PDict d) =>
        if dict_has d "error"
        then HTTPException 500
               (ExternalAPIError (dict_get d "message" (PStr "Check client logs.")))
        else if dict_has d "results"
             then map_search query (PDict d) duration_ms
             else empty_search query duration_ms
    | Returned v =>
        if negb (truthy v) then empty_search query duration_ms
        else match py_contains "results" v with
             | Raised e => Unhandled e
             | Returned false => empty_search query duration_ms
             | Returned true => map_search query v duration_ms
             end
    end
  /\ snd (search_movie (Some self) query duration_ms st)
     = snd (search_movies self query st).
Proof.
  unfold search_movie.
  destruct (search_movies self query st) as [[v|e] st']; cbn [fst snd];
    [|split; reflexivity].
  destruct v as [|b|n|q|s|l|d]; cbn [is_error_dict].
  - split; reflexivity.
  - destruct (negb (truthy (PBool b))); split; reflexivity.
  - destruct (negb (truthy (PInt n))); split; reflexivity.
  - destruct (negb (truthy (PFloat q))); split; reflexivity.
  - destruct (negb (truthy (PStr s))); [split; reflexivity|].
    destruct (py_contains "results" (PStr s)) as [[|]|]; split; reflexivity.
  - destruct (negb (truthy (PList l))); [split; reflexivity|].
    destruct (py_contains "results" (PList l)) as [[|]|]; split; reflexivity.
  - cbn [py_get py_contains]. destruct (dict_has d "error"); [split; reflexivity|].
    destruct d as [|kv d']; [split; reflexivity|]. cbn [truthy negb].
    destruct (dict_has (kv :: d') "results"); split; reflexivity.
Qed.

End ReplyFacts.

(** X7. An upstream error with a JSON object body reaches the caller as
    status 500, whatever the upstream status was (401, 429, 500, ...; for
    search also 404): on a cache miss the reply's detail carries the
    upstream [status_message], or "Unknown API error" when the body has
    none. *)
Theorem upstream_error_reaches_reply `{Pydantic} :
  (forall self movie_id duration_ms st code d,
      cache_get movie_id (entries (details_cache st)) = None ->
      upstream (net st) (sent (net st)) (details_request self movie_id)
        = HttpResponse code (JsonBody (PDict d)) ->
      raises_for_status code = true -> code <> 404%Z ->
      fst (get_movie_details self movie_id st)
        = Returned (PDict [("error", PStr ("API error : " ++ str_of_int code));
                           ("message", dict_get d "status_message" (PStr "Unknown API error"))])
      /\ fst (get_movie (Some self) movie_id duration_ms st)
         = HTTPException 500
             (ExternalAPIError (dict_get d "status_message" (PStr "Unknown API error"))))
  /\ (forall self query duration_ms st code d,
      cache_get query (entries (search_cache st)) = None ->
      upstream (net st) (sent (net st)) (search_request self query)
        = HttpResponse code (JsonBody (PDict d)) ->
      raises_for_status code = true ->
      fst (search_movies self query st)
        = Returned (PDict [("error", PStr ("API Error: " ++ str_of_int code));
                           ("message", dict_get d "status_message" (PStr "Unknown API error"))])
      /\ fst (search_movie (Some self) query duration_ms st)
         = HTTPException 500
             (ExternalAPIError (dict_get d "status_message" (PStr "Unknown API error")))).
Proof.
  split.
  - intros self movie_id duration_ms st code d Hmiss Hup Hr Hne.
    assert (Hres : fst (get_movie_details self movie_id st)
                   = Returned (PDict [("error", PStr ("API error : " ++ str_of_int code));
                        ("message", dict_get d "status_message" (PStr "Unknown API error"))])).
    { destruct (get_movie_details_miss self movie_id st Hmiss) as (-> & _ & _).
      unfold get_movie_details_body, requests_get. fold (details_request self movie_id).
      rewrite Hup, Hr. apply Z.eqb_neq in Hne. now rewrite Hne. }
    split; [exact Hres|].
    rewrite (proj1 (get_movie_of_result self movie_id duration_ms st)), Hres.
    reflexivity.
  - intros self query duration_ms st code d Hmiss Hup Hr.
    assert (Hres : fst (search_movies self query st)
                   = Returned (PDict [("error", PStr ("API Error: " ++ str_of_int code));
                        ("message", dict_get d "status_message" (PStr "Unknown API error"))])).
    { destruct (search_movies_miss self query st Hmiss) as (-> & _ & _).
      unfold search_movies_body, requests_get. fold (search_request self query).
      now rewrite Hup, Hr. }
    split; [exact Hres|].
    rewrite (proj1 (search_movie_of_result self query duration_ms st)), Hres.
    reflexivity.
Qed.

(** An invalid key: upstream says 401, the caller sees 500 with upstream's
    message. *)
Lemma upstream_error_reaches_reply_witness :
  fst (get_movie_details client0 550 (fresh (always unauthorized)))
    = Returned (PDict [("error", PStr "API error : 401");
                       ("message", PStr "Invalid API key: You must be granted a valid key.")])
  /\ fst (get_movie (Some client0) 550 0 (fresh (always unauthorized)))
     = HTTPException 500
         (ExternalAPIError (PStr "Invalid API key: You must be granted a valid key.")).
Proof.
  refine (proj1 upstream_error_reaches_reply client0 550%Z 0%Q
                (fresh (always unauthorized)) 401%Z _ eq_refl eq_refl eq_refl _).
  discriminate.
Defined.

(** X8. A transport failure reaches the caller as status 500 whose detail
    carries the text of the failure: on a cache miss both handlers answer
    500 "External API Error" with that text. *)
Theorem network_failure_reaches_reply `{Pydantic} :
  (forall self movie_id duration_ms st msg,
      cache_get movie_id (entries (details_cache st)) = None ->
      upstream (net st) (sent (net st)) (details_request self movie_id)
        = TransportFailure msg ->
      fst (get_movie (Some self) movie_id duration_ms st)
      = HTTPException 500 (ExternalAPIError (PStr msg)))
  /\ (forall self query duration_ms st msg,
      cache_get query (entries (search_cache st)) = None ->
      upstream (net st) (sent (net st)) (search_request self query)
        = TransportFailure msg ->
      fst (search_movie (Some self) query duration_ms st)
      = HTTPException 500 (ExternalAPIError (PStr msg))).
Proof.
  split.
  - intros self movie_id duration_ms st msg Hmiss Hup.
    rewrite (proj1 (get_movie_of_result self movie_id duration_ms st)).
    destruct (get_movie_details_miss self movie_id st Hmiss) as (-> & _ & _).
    unfold get_movie_details_body, requests_get. fold (details_request self movie_id).
    now rewrite Hup.
  - intros self query duration_ms st msg Hmiss Hup.
    rewrite (proj1 (search_movie_of_result self query duration_ms st)).
    destruct (search_movies_miss self query st Hmiss) as (-> & _ & _).
    unfold search_movies_body, requests_get. fold (search_request self query).
    now rewrite Hup.
Qed.

(** A refused connection surfaces as a 500 that quotes it. *)
Lemma network_failure_reaches_reply_witness :
  fst (search_movie (Some client0) "avengers" 0 (fresh (always connection_refused)))
  = HTTPException 500 (ExternalAPIError (PStr "Connection refused")).
Proof.
  exact (proj2 network_failure_reaches_reply client0 "avengers" 0%Q
               (fresh (always connection_refused)) "Connection refused" eq_refl eq_refl).
Defined.

(* ===================================================================== *)
(** ** Mapping a movie *)
(* ===================================================================== *)

(** X9. A movie payload without an [error] key whose [id] is an integer,
    whose [title] and [overview] are strings and whose [vote_average] is a
    float is answered with those values under the public names [movie_id],
    [title], [rating] and [summary]; [release_date] is copied when it is a
    string and is [None] when it is [null] or absent.  The [movie_id] of
    the reply is the payload's [id], not the id that was asked for. *)
Theorem well_formed_movie_is_mapped `{Pydantic}
    self movie_id duration_ms st st' d i t date r s :
  get_movie_details self movie_id st = (Returned (PDict d), st') ->
  dict_has d "error" = false ->
  dict_lookup d "id" = Some (PInt i) ->
  dict_lookup d "title" = Some (PStr t) ->
  dict_get d "release_date" PNone
    = match date with Some x => PStr x | None => PNone end ->
  dict_lookup d "vote_average" = Some (PFloat r) ->
  dict_lookup d "overview" = Some (PStr s) ->
  get_movie (Some self) movie_id duration_ms st
  = (OK (MovieDetails {| MovieDetailsResponse.movie_id := i;
                         MovieDetailsResponse.title := t;
                         MovieDetailsResponse.release_date := date;
                         MovieDetailsResponse.rating := r;
                         MovieDetailsResponse.summary := s;
                         MovieDetailsResponse.duration_ms := duration_ms |}), st').
Proof.
  intros Hcall Herr Hi Ht Hd Hr Hs.
  rewrite (get_movie_dict _ _ _ _ _ _ Hcall), Herr.
  unfold map_movie. cbn [py_get]. unfold dict_get in *. rewrite Hi, Ht, Hr, Hs.
  unfold new_MovieDetailsResponse.
  rewrite validate_int_int, !validate_str_str, validate_float_float.
  destruct (dict_lookup d "release_date") as [v|]; subst;
    destruct date as [x|]; cbn; now rewrite ?validate_str_str.
Qed.

(** The Avengers, asked for under another id. *)
Lemma well_formed_movie_is_mapped_witness :
  fst (get_movie (Some client0) 7 12 (fresh (always (ok_json avengers))))
  = OK (MovieDetails {| MovieDetailsResponse.movie_id := 24428;
                        MovieDetailsResponse.title := "The Avengers";
                        MovieDetailsResponse.release_date := Some "2012-04-25";
                        MovieDetailsResponse.rating := 77 # 10;
                        MovieDetailsResponse.summary := "...";
                        MovieDetailsResponse.duration_ms := 12 |}).
Proof.
  rewrite (well_formed_movie_is_mapped client0 7%Z 12%Q
             (fresh (always (ok_json avengers)))
             (snd (get_movie_details client0 7 (fresh (always (ok_json avengers)))))
             _ 24428%Z "The Avengers" (Some "2012-04-25") (77 # 10) "..."
             eq_refl eq_refl eq_refl eq_refl eq_refl eq_refl eq_refl).
  reflexivity.
Defined.

(** X10. A movie payload without an [error] key in which [id], [title],
    [vote_average] or [overview] is absent or [null] is answered with
    status 500 "Error processing external data structure", under every
    validator. *)
Theorem missing_required_field_is_500 `{Pydantic}
    self movie_id duration_ms st st' d key :
  get_movie_details self movie_id st = (Returned (PDict d), st') ->
  dict_has d "error" = false ->
  In key ["id"; "title"; "vote_average"; "overview"] ->
  dict_get d key PNone = PNone ->
  get_movie (Some self) movie_id duration_ms st
  = (HTTPException 500 DetailsProcessingError, st').
Proof.
  intros Hcall Herr Hkey Hnone.
  rewrite (get_movie_dict _ _ _ _ _ _ Hcall), Herr. f_equal.
  unfold map_movie, new_MovieDetailsResponse. cbn [py_get].
  cbn [In] in Hkey.
  destruct Hkey as [<- | [<- | [<- | [<- | []]]]]; rewrite Hnone.
  - now rewrite validate_int_None.
  - rewrite validate_str_None. now destruct (validate_int (dict_get d "id" PNone)).
  - rewrite validate_float_None.
    destruct (validate_int (dict_get d "id" PNone)),
      (validate_str (dict_get d "title" PNone)),
      (validate_optional_str (dict_get d "release_date" PNone)); reflexivity.
  - rewrite validate_str_None.
    destruct (validate_int (dict_get d "id" PNone)),
      (validate_str (dict_get d "title" PNone)),
      (validate_optional_str (dict_get d "release_date" PNone)),
      (validate_float (dict_get d "vote_average" PNone)); reflexivity.
Qed.

(** A movie without a title. *)
Lemma missing_required_field_is_500_witness :
  fst (get_movie (Some client0) 24428 0 (fresh (always (ok_json untitled))))
  = HTTPException 500 DetailsProcessingError.
Proof.
  rewrite (missing_required_field_is_500 client0 24428%Z 0%Q
             (fresh (always (ok_json untitled)))
             (snd (get_movie_details client0 24428 (fresh (always (ok_json untitled)))))
             _ "title" eq_refl eq_refl (or_intror (or_introl eq_refl)) eq_refl).
  reflexivity.
Defined.

(** X11. A detail lookup that upstream answers successfully with JSON that
    is not an object: the value [null] is answered 404 "not found", although
    upstream reported no error; a list, string, number or boolean is
    answered 500 "Error processing external data structure". *)
Theorem non_object_movie_payload `{Pydantic} self movie_id duration_ms st code v :
  cache_get movie_id (entries (details_cache st)) = None ->
  upstream (net st) (sent (net st)) (details_request self movie_id)
    = HttpResponse code (JsonBody v) ->
  raises_for_status code = false ->
  (forall d, v <> PDict d) ->
  fst (get_movie (Some self) movie_id duration_ms st)
  = match v with
    | PNone => HTTPException 404 (MovieNotFound movie_id)
    | _ => HTTPException 500 DetailsProcessingError
    end.
Proof.
  intros Hmiss Hup Hr Hnd.
  rewrite (proj1 (get_movie_of_result self movie_id duration_ms st)).
  destruct (get_movie_details_miss self movie_id st Hmiss) as (-> & _ & _).
  unfold get_movie_details_body, requests_get. fold (details_request self movie_id).
  rewrite Hup, Hr. cbn [fst].
  destruct v as [| | | | | |d]; try reflexivity. now destruct (Hnd d).
Qed.

(** A success response with body [null] becomes a 404. *)
Lemma non_object_movie_payload_witness :
  fst (get_movie (Some client0) 550 0 (fresh (always null_body)))
  = HTTPException 404 (MovieNotFound 550).
Proof.
  refine (non_object_movie_payload client0 550%Z 0%Q (fresh (always null_body))
            200%Z PNone eq_refl eq_refl eq_refl _).
  discriminate.
Defined.

(* ===================================================================== *)
(** ** Mapping search results *)
(* ===================================================================== *)

Section SearchMapping.

Context `{Pydantic}.

Lemma map_results_well_formed (items : list pyval) (ms : list MovieSearchResult.t) :
  Forall2 item_fields items ms -> map_results items = Returned ms.
Proof.
  induction 1 as [|item m items ms (d & -> & Hi & Ht & Hd) _ IH]; [reflexivity|].
  cbn [map_results py_get]. rewrite Hi, Ht, Hd, IH.
  unfold new_MovieSearchResult. rewrite validate_int_int, validate_str_str.
  destruct m as [i t [date|]]; cbn; now rewrite ?validate_str_str.
Qed.

Lemma map_results_unmappable (items : list pyval) (item : pyval) :
  In item items -> unmappable_item item -> exists e, map_results items = Raised e.
Proof.
  induction items as [|a items IH]; intros Hin Hbad; [destruct Hin|].
  cbn [map_results].
  destruct Hin as [-> | Hin].
  - destruct item as [| | | | | |d]; cbn [py_get]; eauto.
    unfold new_MovieSearchResult. cbn [unmappable_item] in Hbad.
    destruct Hbad as [-> | ->].
    + rewrite validate_int_None. eauto.
    + rewrite validate_str_None.
      destruct (validate_int (dict_get d "id" PNone)); eauto.
  - destruct (IH Hin Hbad) as [e He]. rewrite He.
    destruct (py_get a "id" PNone) as [i|], (py_get a "title" PNone) as [t|],
      (py_get a "release_date" PNone) as [dd|]; eauto.
    destruct (new_MovieSearchResult i t dd); eauto.
Qed.

End SearchMapping.

(** X12. A search payload without an [error] key whose [results] is a list
    of objects, each with an integer [id], a string [title] and a
    [release_date] that is a string, [null] or absent, is answered with
    one result per item, in upstream's order, carrying those three fields,
    and with the payload's integer [total_results] (the number of items
    when the payload has none). *)
Theorem well_formed_search_is_mapped `{Pydantic}
    self query duration_ms st st' d items ms n :
  search_movies self query st = (Returned (PDict d), st') ->
  dict_has d "error" = false ->
  dict_lookup d "results" = Some (PList items) ->
  Forall2 item_fields items ms ->
  dict_get d "total_results" (PInt (Z.of_nat (length ms))) = PInt n ->
  search_movie (Some self) query duration_ms st
  = (OK (Search {| SearchResponse.query := query;
                   SearchResponse.total_results := n;
                   SearchResponse.results := ms;
                   SearchResponse.duration_ms := duration_ms |}), st').
Proof.
  intros Hcall Herr Hres Hitems Htotal.
  rewrite (search_movie_dict _ _ _ _ _ _ Hcall), Herr.
  unfold dict_has. rewrite Hres. f_equal.
  unfold map_search. cbn [py_get]. unfold dict_get at 1. rewrite Hres.
  cbn [py_iter]. rewrite (map_results_well_formed _ _ Hitems), Htotal.
  unfold new_SearchResponse. now rewrite validate_int_int.
Qed.

(** One hit out of 172. *)
Lemma well_formed_search_is_mapped_witness :
  fst (search_movie (Some client0) "avengers" 3 (fresh (always (ok_json one_hit))))
  = OK (Search {| SearchResponse.query := "avengers";
                  SearchResponse.total_results := 172;
                  SearchResponse.results :=
                    [{| MovieSearchResult.movie_id := 24428;
                        MovieSearchResult.title := "The Avengers";
                        MovieSearchResult.release_date := Some "2012-04-25" |}];
                  SearchResponse.duration_ms := 3 |}).
Proof.
  rewrite (well_formed_search_is_mapped client0 "avengers" 3%Q
             (fresh (always (ok_json one_hit)))
             (snd (search_movies client0 "avengers" (fresh (always (ok_json one_hit)))))
             _ _
             [{| MovieSearchResult.movie_id := 24428;
                 MovieSearchResult.title := "The Avengers";
                 MovieSearchResult.release_date := Some "2012-04-25" |}]
             172%Z eq_refl eq_refl eq_refl).
  - reflexivity.
  - constructor; [|constructor]. eexists. repeat split.
  - reflexivity.
Defined.

(** X13. One item that cannot be mapped fails the whole search: when the
    [results] list of a payload without an [error] key holds an item that
    is not an object, or whose [id] or [title] is absent or [null], the
    reply is status 500 "Error processing external search results", however
    many good items the list has. *)
Theorem one_bad_item_fails_search `{Pydantic}
    self query duration_ms st st' d items item :
  search_movies self query st = (Returned (PDict d), st') ->
  dict_has d "error" = false ->
  dict_lookup d "results" = Some (PList items) ->
  In item items -> unmappable_item item ->
  search_movie (Some self) query duration_ms st
  = (HTTPException 500 SearchProcessingError, st').
Proof.
  intros Hcall Herr Hres Hin Hbad.
  rewrite (search_movie_dict _ _ _ _ _ _ Hcall), Herr.
  unfold dict_has. rewrite Hres. f_equal.
  unfold map_search. cbn [py_get]. unfold dict_get at 1. rewrite Hres.
  cbn [py_iter]. destruct (map_results_unmappable _ _ Hin Hbad) as [e ->].
  reflexivity.
Qed.

(** A good item followed by one without an id. *)
Lemma one_bad_item_fails_search_witness :
  fst (search_movie (Some client0) "avengers" 0 (fresh (always (ok_json one_bad_hit))))
  = HTTPException 500 SearchProcessingError.
Proof.
  rewrite (one_bad_item_fails_search client0 "avengers" 0%Q
             (fresh (always (ok_json one_bad_hit)))
             (snd (search_movies client0 "avengers" (fresh (always (ok_json one_bad_hit)))))
             _ _ (PDict [("title", PStr "Untitled")]) eq_refl eq_refl eq_refl).
  - reflexivity.
  - right. left. reflexivity.
  - left. reflexivity.
Defined.

(** X14. A search payload that is JSON but not an object.  A non-zero
    number or [true] makes line 160 raise [TypeError] outside the [try], so
    the handler ends with an unhandled [TypeError].  A list holding the
    string "results", or a string containing it, is answered 500.  Every
    other value ([null], [false], zero, any other list or string) is
    answered as a successful empty result. *)
Theorem non_object_search_payload `{Pydantic} self query duration_ms st v :
  fst (search_movies self query st) = Returned v ->
  (forall d, v <> PDict d) ->
  let reply := fst (search_movie (Some self) query duration_ms st) in
  let empty := OK (Search {| SearchResponse.query := query;
                             SearchResponse.total_results := 0;
                             SearchResponse.results := [];
                             SearchResponse.duration_ms := duration_ms |}) in
  let failed := HTTPException 500 SearchProcessingError in
  let unhandled := exists msg, reply = Unhandled (TypeError msg) in
  match v with
  | PNone => reply = empty
  | PBool b => if b then unhandled else reply = empty
  | PInt n => if (n =? 0)%Z then reply = empty else unhandled
  | PFloat q => if Qeq_bool q 0 then reply = empty else unhandled
  | PStr s => reply = if str_contains "results" s then failed else empty
  | PList l =>
      reply = if existsb (fun x => match x with
                                   | PStr s => String.eqb s "results"
                                   | _ => false
                                   end) l
              then failed else empty
  | PDict _ => True
  end.
Proof.
  intros Hres Hnd. cbn zeta.
  rewrite (proj1 (search_movie_of_result self query duration_ms st)), Hres.
  rewrite <- (empty_search_ok query duration_ms).
  destruct v as [|b|n|q|s|l|d]; cbn [truthy negb py_contains].
  - reflexivity.
  - destruct b; [eexists|]; reflexivity.
  - destruct (n =? 0)%Z; [|eexists]; reflexivity.
  - destruct (Qeq_bool q 0); [|eexists]; reflexivity.
  - destruct s as [|a s]; [reflexivity|].
    cbn [String.eqb negb]. now destruct (str_contains "results" (String a s)).
  - destruct l as [|a l]; [reflexivity|].
    now destruct (existsb _ (a :: l)).
  - exact I.
Qed.

(** The body [7] ends the handler with a [TypeError]. *)
Lemma non_object_search_payload_witness :
  exists msg,
    fst (search_movie (Some client0) "avengers" 0 (fresh (always (ok_json (PInt 7)))))
    = Unhandled (TypeError msg).
Proof.
  refine (non_object_search_payload client0 "avengers" 0%Q
            (fresh (always (ok_json (PInt 7)))) (PInt 7) eq_refl _).
  discriminate.
Defined.

(* ===================================================================== *)
(** ** Statuses of the replies *)
(* ===================================================================== *)

(** X15. The statuses a handler can raise.  [search_movie] never answers
    404: an upstream 404 on search arrives as an error dictionary and goes
    out as 500.  [get_movie] raises only 503, 404 and 500, and
    [search_movie] only 503 and 500.  A handler answers 503 exactly when
    the client is missing, and [get_movie] answers 404 exactly when the
    client call returned [None]. *)
Theorem reply_statuses `{Pydantic} :
  (forall client query duration_ms st d,
      fst (search_movie client query duration_ms st) <> HTTPException 404 d)
  /\ (forall client movie_id duration_ms st code d,
      fst (get_movie client movie_id duration_ms st) = HTTPException code d ->
      code = 503%Z \/ code = 404%Z \/ code = 500%Z)
  /\ (forall client query duration_ms st code d,
      fst (search_movie client query duration_ms st) = HTTPException code d ->
      code = 503%Z \/ code = 500%Z)
  /\ (forall client movie_id duration_ms st,
      (exists d, fst (get_movie client movie_id duration_ms st) = HTTPException 503 d)
      <-> client = None)
  /\ (forall client query duration_ms st,
      (exists d, fst (search_movie client query duration_ms st) = HTTPException 503 d)
      <-> client = None)
  /\ (forall self movie_id duration_ms st,
      (exists d, fst (get_movie (Some self) movie_id duration_ms st) = HTTPException 404 d)
      <-> fst (get_movie_details self movie_id st) = Returned PNone).
Proof.
  assert (Hmovie : forall self movie_id duration_ms st code d,
      fst (get_movie (Some self) movie_id duration_ms st) = HTTPException code d ->
      (code = 404%Z /\ fst (get_movie_details self movie_id st) = Returned PNone)
      \/ code = 500%Z).
  { intros self movie_id duration_ms st code d.
    rewrite (proj1 (get_movie_of_result self movie_id duration_ms st)).
    destruct (fst (get_movie_details self movie_id st)) as [v|e]; [|discriminate].
    assert (Hmap : forall v' P, map_movie v' duration_ms = HTTPException code d ->
                                P \/ code = 500%Z).
    { intros v' P. destruct (map_movie_cases v' duration_ms) as [[r ->] | ->];
        [discriminate | intros [= <- _]; now right]. }
    destruct v as [|b|n|q|s|l|dd]; try apply Hmap.
    - intros [= <- _]. now left.
    - destruct (dict_has dd "error"); [intros [= <- _]; now right | apply Hmap]. }
  assert (Hsearch : forall self query duration_ms st code d,
      fst (search_movie (Some self) query duration_ms st) = HTTPException code d ->
      code = 500%Z).
  { intros self query duration_ms st code d.
    rewrite (proj1 (search_movie_of_result self query duration_ms st)).
    rewrite empty_search_ok.
    destruct (fst (search_movies self query st)) as [v|e]; [|discriminate].
    assert (Hmap : forall v', map_search query v' duration_ms = HTTPException code d ->
                              code = 500%Z).
    { intros v'. destruct (map_search_cases query v' duration_ms) as [[r ->] | ->];
        [discriminate | now intros [= <- _]]. }
    destruct v as [|b|n|q|s|l|dd].
    - discriminate.
    - destruct (negb (truthy (PBool b))); discriminate.
    - destruct (negb (truthy (PInt n))); discriminate.
    - destruct (negb (truthy (PFloat q))); discriminate.
    - destruct (negb (truthy (PStr s))); [discriminate|].
      destruct (py_contains "results" (PStr s)) as [[|]|]; try discriminate. apply Hmap.
    - destruct (negb (truthy (PList l))); [discriminate|].
      destruct (py_contains "results" (PList l)) as [[|]|]; try discriminate. apply Hmap.
    - destruct (dict_has dd "error"); [now intros [= <- _]|].
      destruct (dict_has dd "results"); [apply Hmap | discriminate]. }
  repeat split.
  - intros [self|] query duration_ms st d Heq.
    + apply Hsearch in Heq. discriminate.
    + discriminate.
  - intros [self|] movie_id duration_ms st code d Heq.
    + destruct (Hmovie _ _ _ _ _ _ Heq) as [[-> _] | ->]; auto.
    + injection Heq as <- _. auto.
  - intros [self|] query duration_ms st code d Heq.
    + apply Hsearch in Heq. auto.
    + injection Heq as <- _. auto.
  - intros [d Heq]. destruct client as [self|]; [|reflexivity].
    destruct (Hmovie _ _ _ _ _ _ Heq) as [[[=] _] | [=]].
  - intros ->. eexists. reflexivity.
  - intros [d Heq]. destruct client as [self|]; [|reflexivity].
    apply Hsearch in Heq. discriminate.
  - intros ->. eexists. reflexivity.
  - intros [d Heq]. destruct (Hmovie _ _ _ _ _ _ Heq) as [[_ Hn] | [=]]. exact Hn.
  - intros Hn. rewrite (proj1 (get_movie_of_result self movie_id duration_ms st)), Hn.
    eexists. reflexivity.
Qed.

(* ===================================================================== *)
(** ** Repeated requests *)
(* ===================================================================== *)

(** X16. Once a client call has returned, repeating the request is served
    from the cache: the handler gives the reply the first request gives for
    the same measured duration (the same data, the same 404, the same 500)
    and nothing is sent upstream, even if upstream would answer differently
    now. *)
Theorem repeated_request_same_reply `{Pydantic} :
  (forall self movie_id d1 d2 st,
      is_returned (fst (get_movie_details self movie_id st)) = true ->
      let st1 := snd (get_movie (Some self) movie_id d1 st) in
      fst (get_movie (Some self) movie_id d2 st1)
        = fst (get_movie (Some self) movie_id d2 st)
      /\ net (snd (get_movie (Some self) movie_id d2 st1)) = net st1)
  /\ (forall self query d1 d2 st,
      is_returned (fst (search_movies self query st)) = true ->
      let st1 := snd (search_movie (Some self) query d1 st) in
      fst (search_movie (Some self) query d2 st1)
        = fst (search_movie (Some self) query d2 st)
      /\ net (snd (search_movie (Some self) query d2 st1)) = net st1).
Proof.
  split.
  - intros self movie_id d1 d2 st Hret. cbn zeta.
    rewrite (proj2 (get_movie_of_result self movie_id d1 st)).
    rewrite (proj1 (get_movie_of_result self movie_id d2 _)),
            (proj2 (get_movie_of_result self movie_id d2 _)),
            (proj1 (get_movie_of_result self movie_id d2 st)).
    destruct (get_movie_details self movie_id st) as [[v|e] st'] eqn:Hcall;
      [|discriminate].
    cbn [fst snd]. rewrite (get_movie_details_replay _ _ _ _ _ Hcall). split; reflexivity.
  - intros self query d1 d2 st Hret. cbn zeta.
    rewrite (proj2 (search_movie_of_result self query d1 st)).
    rewrite (proj1 (search_movie_of_result self query d2 _)),
            (proj2 (search_movie_of_result self query d2 _)),
            (proj1 (search_movie_of_result self query d2 st)).
    destruct (search_movies self query st) as [[v|e] st'] eqn:Hcall;
      [|discriminate].
    cbn [fst snd]. rewrite (search_movies_replay _ _ _ _ _ Hcall). split; reflexivity.
Qed.

(** Upstream has the movie for the first request only; the second request
    is answered with the movie all the same, and one request was sent. *)
Lemma repeated_request_same_reply_witness :
  let st0 := fresh (changing 1 (ok_json avengers) not_found) in
  let st1 := snd (get_movie (Some client0) 24428 40 st0) in
  (fst (get_movie (Some client0) 24428 1 st1) = fst (get_movie (Some client0) 24428 1 st0)
   /\ net (snd (get_movie (Some client0) 24428 1 st1)) = net st1)
  /\ length (sent (net st1)) = 1%nat.
Proof.
  split; [|reflexivity].
  apply (proj1 repeated_request_same_reply client0 24428%Z 40%Q 1%Q
               (fresh (changing 1 (ok_json avengers) not_found))).
  reflexivity.
Defined.

(* ===================================================================== *)
(** ** How long an entry stays cached *)
(* ===================================================================== *)

Section Survival.

Context {K V W : Type} `{EqDecision K}.

Lemma recency_app (h1 h2 older : list K) :
  recency (h1 ++ h2)%list older = recency h2 (recency h1 older).
Proof.
  revert older. induction h1 as [|k h1 IH]; intros older; [reflexivity|].
  cbn [app recency]. apply IH.
Qed.

Lemma drop_key_app (k : K) (a b : list K) :
  drop_key k (a ++ b)%list = (drop_key k a ++ drop_key k b)%list.
Proof. unfold drop_key. apply List.filter_app. Qed.

(** Keys used after [k] can only get in front of [k]; they never push it
    out of the order. *)
Lemma recency_front (k : K) (others later : list K) :
  forall acc,
    (exists pre post, acc = (pre ++ k :: post)%list
                      /\ NoDup pre /\ (forall x, In x pre -> In x others)) ->
    (forall x, In x later -> x = k \/ In x others) ->
    exists pre post, recency later acc = (pre ++ k :: post)%list
                     /\ NoDup pre /\ (forall x, In x pre -> In x others).
Proof.
  induction later as [|x later IH]; intros acc Hacc Hlater; [exact Hacc|].
  cbn [recency]. apply IH; [|intros y Hy; apply Hlater; now right].
  destruct Hacc as (pre & post & -> & Hnd & Hincl).
  destruct (decide (x = k)) as [->|Hne].
  - exists [], (drop_key k (pre ++ k :: post)).
    split; [reflexivity|]. split; [apply NoDup_nil_2 | intros y []].
  - exists (x :: drop_key x pre), (drop_key x post).
    split; [|split].
    + rewrite drop_key_app. unfold drop_key at 2. cbn [List.filter].
      rewrite bool_decide_eq_false_2 by exact Hne. reflexivity.
    + apply NoDup_drop_key, Hnd.
    + intros y [<- | Hy].
      * destruct (Hlater x (or_introl eq_refl)) as [Heq | Hin]; [contradiction | exact Hin].
      * apply Hincl. now apply In_drop_key in Hy.
Qed.

(** A key that was followed only by itself and by keys of a list shorter
    than the cache is still cached. *)
Lemma lru_calls_survives (m : nat) (f : K -> W -> result V * W)
    (before later others : list K) (k : K) (w : W) rs c' w' :
  (0 < m)%nat ->
  (forall x, In x later -> x = k \/ In x others) ->
  (length others < m)%nat ->
  lru_calls m f (before ++ k :: later) (empty_lru, w) = (rs, (c', w')) ->
  forallb is_returned rs = true ->
  exists v, cache_get k (entries c') = Some v.
Proof.
  intros Hm Hlater Hlen Hrun Hret.
  pose proof (lru_calls_recency m f _ empty_lru w rs c' w' Hm
                (NoDup_nil_2 : NoDup (keys (entries empty_lru)))
                (Nat.le_0_l _) Hrun Hret) as Hkeys.
  cbn [entries empty_lru keys map] in Hkeys.
  rewrite recency_app in Hkeys. cbn [recency] in Hkeys.
  destruct (recency_front k others later (k :: drop_key k (recency before [])))
    as (pre & post & Heq & Hnd & Hincl); [|exact Hlater|].
  { exists [], (drop_key k (recency before [])).
    split; [reflexivity|]. split; [apply NoDup_nil_2 | intros y []]. }
  rewrite Heq in Hkeys.
  assert (Hpre : (length pre < m)%nat).
  { apply Nat.le_lt_trans with (length others); [|exact Hlen].
    apply NoDup_incl_length; [now apply NoDup_ListNoDup | exact Hincl]. }
  destruct (cache_get k (entries c')) as [v|] eqn:Hg; [eauto|].
  exfalso. apply cache_get_None in Hg. apply Hg. rewrite Hkeys, firstn_app.
  apply in_or_app. right.
  destruct (m - length pre)%nat as [|n] eqn:Hn; [lia|]. now left.
Qed.

End Survival.

(** X17. An entry outlives fewer than 128 other ids (32 other queries).
    When, after the lookup of a key, only that key and keys from a list
    shorter than the cache are looked up, and every lookup of the run
    returned, the key is still cached: its next lookup is answered from
    the cache and sends nothing. *)
Theorem entry_survives_fewer_other_keys :
  (forall self before movie_id later others w,
      (forall x, In x later -> x = movie_id \/ In x others) ->
      (length others < 128)%nat ->
      forallb is_returned
        (fst (run_calls self (map Details (before ++ movie_id :: later)) (fresh w))) = true ->
      let st := snd (run_calls self (map Details (before ++ movie_id :: later)) (fresh w)) in
      exists v,
        cache_get movie_id (entries (details_cache st)) = Some v
        /\ fst (get_movie_details self movie_id st) = Returned v
        /\ net (snd (get_movie_details self movie_id st)) = net st)
  /\ (forall self before query later others w,
      (forall x, In x later -> x = query \/ In x others) ->
      (length others < 32)%nat ->
      forallb is_returned
        (fst (run_calls self (map SearchFor (before ++ query :: later)) (fresh w))) = true ->
      let st := snd (run_calls self (map SearchFor (before ++ query :: later)) (fresh w)) in
      exists v,
        cache_get query (entries (search_cache st)) = Some v
        /\ fst (search_movies self query st) = Returned v
        /\ net (snd (search_movies self query st)) = net st).
Proof.
  split.
  - intros self before movie_id later others w Hlater Hlen.
    rewrite (run_details_calls self _ (fresh w)).
    cbn [fresh details_cache search_cache net].
    destruct (lru_calls details_maxsize (get_movie_details_body self)
                (before ++ movie_id :: later) (empty_lru, w)) as [rs [c w']] eqn:Hrun.
    cbn [fst snd]. intros Hret.
    destruct (lru_calls_survives _ _ _ _ _ _ _ _ _ _ details_maxsize_pos
                Hlater Hlen Hrun Hret) as [v Hg].
    exists v. cbn [details_cache]. split; [exact Hg|].
    match goal with |- context [get_movie_details self movie_id ?s] =>
      pose proof (get_movie_details_step self movie_id s) as Hstep end.
    cbn [details_cache] in Hstep.
    destruct Hstep as (_ & _ & [(v' & Hg' & Hres & Hnet & _) | (Hg' & _)]);
      [|congruence].
    rewrite Hg in Hg'. injection Hg' as <-. auto.
  - intros self before query later others w Hlater Hlen.
    rewrite (run_search_calls self _ (fresh w)).
    cbn [fresh details_cache search_cache net].
    destruct (lru_calls search_maxsize (search_movies_body self)
                (before ++ query :: later) (empty_lru, w)) as [rs [c w']] eqn:Hrun.
    cbn [fst snd]. intros Hret.
    destruct (lru_calls_survives _ _ _ _ _ _ _ _ _ _ search_maxsize_pos
                Hlater Hlen Hrun Hret) as [v Hg].
    exists v. cbn [search_cache]. split; [exact Hg|].
    match goal with |- context [search_movies self query ?s] =>
      pose proof (search_movies_step self query s) as Hstep end.
    cbn [search_cache] in Hstep.
    destruct Hstep as (_ & _ & [(v' & Hg' & Hres & Hnet & _) | (Hg' & _)]);
      [|congruence].
    rewrite Hg in Hg'. injection Hg' as <-. auto.
Qed.

(** Id 1, then the 127 ids from 2 on, each looked up twice: id 1 is still
    cached. *)
Lemma entry_survives_fewer_other_keys_witness :
  let w := always (ok_json avengers) in
  let later := (ids_from 2 127 ++ ids_from 2 127)%list in
  let st := snd (run_calls client0 (map Details ([] ++ 1%Z :: later)) (fresh w)) in
  exists v,
    cache_get 1%Z (entries (details_cache st)) = Some v
    /\ fst (get_movie_details client0 1 st) = Returned v
    /\ net (snd (get_movie_details client0 1 st)) = net st.
Proof.
  apply (proj1 entry_survives_fewer_other_keys client0 [] 1%Z
               (ids_from 2 127 ++ ids_from 2 127)%list (ids_from 2 127)
               (always (ok_json avengers))).
  - intros x Hx. right. apply in_app_or in Hx. tauto.
  - vm_compute. lia.
  - vm_compute. reflexivity.
Defined.

(* ===================================================================== *)
(** ** The two caches are separate *)
(* ===================================================================== *)

(** X18. The two decorated methods share nothing but the network: a run
    of searches, whatever their queries and outcomes, leaves the detail
    cache (entries and counters) exactly as it was, and a run of detail
    lookups leaves the search cache exactly as it was. *)
Theorem caches_are_separate (self : MovieAPIClient) (st : client_state) :
  (forall queries,
      details_cache (snd (run_calls self (map SearchFor queries) st)) = details_cache st)
  /\ (forall ids,
      search_cache (snd (run_calls self (map Details ids) st)) = search_cache st).
Proof.
  split.
  - intros queries. rewrite run_search_calls.
    now destruct (lru_calls search_maxsize _ queries _) as [rs [c w]].
  - intros ids. rewrite run_details_calls.
    now destruct (lru_calls details_maxsize _ ids _) as [rs [c w]].
Qed.
